(** * crisisManagement: the streaming dashboard and its performance monitor

  A shallow embedding of
    - src/components/Dashboard.tsx        (module [Dashboard], module [Connection])
    - src/hooks/useWebSocket.ts           (module [UseWebSocket])
    - src/hooks/usePerformanceMonitor.ts  (module [PerformanceMonitor])
    - the useDataProcessor hook           (module [DataProcessor])
  React state is passed explicitly: a [setX(prev => ...)] call is the
  application of its updater to the current value, refs are record fields.
  The host supplies [Date.now()], [Math.random()] and [JSON.parse]; their
  results are inputs of the handlers. *)

From Stdlib Require Import ZArith NArith QArith Qround String Ascii Sorting.Sorted Lia Lqa.
From stdpp Require Import base list strings pretty sorting.

Local Open Scope Z_scope.

(** ** Host values shared by the handlers *)

Module Host.

(** What the handlers observe of a parsed JSON value.  [undefined] fields
    are [None].  A JSON number, string or array has none of the named
    properties and reads like an object without fields; [null] is kept
    apart because a property access on it throws. *)
Record JsObject := {
  o_type      : option string;
  o_siteId    : option string;
  o_siteName  : option string;
  o_pageViews : option Z;
  o_timestamp : option Z;
  o_id        : option N
}.

Inductive JsValue :=
| JNull
| JObject (o : JsObject).

(** [JSON.parse(text)] either returns a value or throws a SyntaxError. *)
Inductive ParseResult :=
| SyntaxError
| Parsed (v : JsValue).

(** A [MessageEvent]: the frame's text and what [JSON.parse] makes of it. *)
Record MessageEvent := {
  e_data : string;
  e_json : ParseResult
}.

(** Result of running an event handler: it returns, or an exception
    leaves it uncaught. *)
Inductive Completion (S : Type) :=
| Returned (s : S)
| Uncaught (name : string).
Arguments Returned {S} s.
Arguments Uncaught {S} name.

(** [arr.slice(-n)] for [n > 0]: the last [n] elements, all of them when
    the array is shorter. *)
Definition slice_neg {A} (n : nat) (arr : list A) : list A :=
  drop (length arr - n) arr.

(** [hay.includes(needle)] *)
Fixpoint includes (needle hay : string) : bool :=
  String.prefix needle hay ||
  match hay with
  | EmptyString => false
  | String _ rest => includes needle rest
  end.

Definition emptyObject : JsObject :=
  {| o_type := None; o_siteId := None; o_siteName := None;
     o_pageViews := None; o_timestamp := None; o_id := None |}.

(** The properties an object spread [{...v}] copies. *)
Definition spread (v : JsValue) : JsObject :=
  match v with
  | JNull => emptyObject
  | JObject o => o
  end.

End Host.

Module Dashboard.
Import Host.

Record DataPoint := {
  siteId    : option string;
  siteName  : option string;
  pageViews : option Z;
  timestamp : Z;
  id        : N
}.

Record Site := {
  s_siteId   : option string;
  s_siteName : option string;
  s_data     : list DataPoint
}.

Definition MAX_POINTS : nat := 200.

(** Component state: [data] and [sites]. *)
Record State := {
  data  : list DataPoint;
  sites : list Site
}.

Definition initial : State := {| data := []; sites := [] |}.

(** [{ ...newData, timestamp: Date.now(), id: Math.random() }]: the two
    later keys override whatever the payload carried. *)
Definition enrich (newData : JsValue) (now : Z) (rnd : N) : DataPoint :=
  let o := spread newData in
  {| siteId := o_siteId o; siteName := o_siteName o; pageViews := o_pageViews o;
     timestamp := now; id := rnd |}.

(** [arr[arr.length-1]?.id] *)
Definition last_id (arr : list DataPoint) : option N := id <$> last arr.

(** The updater passed to [setData]. *)
Definition setData_updater (enrichedData : DataPoint) (prev : list DataPoint)
  : list DataPoint :=
  let newDataArray := slice_neg MAX_POINTS prev ++ [enrichedData] in
  if bool_decide (length prev = length newDataArray)
     && bool_decide (last_id prev = last_id newDataArray)
  then prev
  else newDataArray.

(** The updater passed to [setSites]. *)
Definition setSites_updater (enrichedData : DataPoint) (prev : list Site)
  : list Site :=
  match list_find (fun s => s_siteId s = siteId enrichedData) prev with
  | None =>
      prev ++ [ {| s_siteId := siteId enrichedData;
                   s_siteName := siteName enrichedData;
                   s_data := [enrichedData] |} ]
  | Some (index, site) =>
      let updatedSite :=
        {| s_siteId := s_siteId site; s_siteName := s_siteName site;
           s_data := slice_neg MAX_POINTS (s_data site) ++ [enrichedData] |} in
      if bool_decide (length (s_data site) = length (s_data updatedSite))
         && bool_decide (last_id (s_data site) = last_id (s_data updatedSite))
      then prev
      else <[index := updatedSite]> prev
  end.

(** [wsRef.current.onmessage]: [JSON.parse] is not guarded. *)
Definition onmessage (event : MessageEvent) (now : Z) (rnd : N) (st : State)
  : Completion State :=
  match e_json event with
  | SyntaxError => Uncaught "SyntaxError"
  | Parsed newData =>
      let enrichedData := enrich newData now rnd in
      Returned {| data := setData_updater enrichedData (data st);
                  sites := setSites_updater enrichedData (sites st) |}
  end.

(** One inbound frame with the host readings taken while handling it. *)
Record Arrival := {
  a_event : MessageEvent;
  a_now   : Z;   (* Date.now() *)
  a_rnd   : N    (* Math.random(), as the numerator k of k / 2^53 *)
}.

(** The event loop hands one frame to the handler.  An exception thrown
    by the handler is reported by the host and the component state stays
    as it was; the next frame is delivered all the same. *)
Definition deliver (st : State) (a : Arrival) : State :=
  match onmessage (a_event a) (a_now a) (a_rnd a) st with
  | Returned st' => st'
  | Uncaught _ => st
  end.

Definition run_from (st : State) (arrivals : list Arrival) : State :=
  foldl deliver st arrivals.

(** The states the component can reach from its mount. *)
Definition run (arrivals : list Arrival) : State := run_from initial arrivals.

(** The series kept for a site: [sites.find(s => s.siteId === k)?.data]. *)
Definition window (k : option string) (st : State) : list DataPoint :=
  match list_find (fun s => s_siteId s = k) (sites st) with
  | Some (_, site) => s_data site
  | None => []
  end.

Definition timestamps (w : list DataPoint) : list Z := timestamp <$> w.

(** Invariants used for the runs: every list holds at most [n] points;
    every series is ordered by time stamp and stamped no later than [t]. *)
Definition within (n : nat) (st : State) : Prop :=
  (length (data st) <= n)%nat /\
  Forall (fun s => (length (s_data s) <= n)%nat) (sites st).

Definition stamped_by (t : Z) (w : list DataPoint) : Prop :=
  StronglySorted Z.le (timestamps w) /\ Forall (fun d => timestamp d <= t) w.

Definition stamped (t : Z) (st : State) : Prop :=
  Forall (fun s => stamped_by t (s_data s)) (sites st).

End Dashboard.

Module UseWebSocket.
Import Host.

(** [setData((prev) => [...prev.slice(-999), point])] *)
Definition setData_updater (point : JsValue) (prev : list JsValue) : list JsValue :=
  slice_neg 999 prev ++ [point].

(** [ws.onmessage]: [JSON.parse] is not guarded here either. *)
Definition onmessage (event : MessageEvent) (data : list JsValue)
  : Completion (list JsValue) :=
  match e_json event with
  | SyntaxError => Uncaught "SyntaxError"
  | Parsed point => Returned (setData_updater point data)
  end.

End UseWebSocket.

(** ** The socket life cycle of the Dashboard effect *)

Module Connection.

(** Sockets are numbered in the order [new WebSocket(...)] builds them.
    [timers] holds the due time of every pending
    [setTimeout(connectWebSocket, 3000)], oldest first. *)
Record State := {
  wsRef   : option nat;
  sockets : nat;
  closed  : list nat;
  timers  : list Z
}.

Definition RECONNECT_DELAY : Z := 3000.

Definition initial : State :=
  {| wsRef := None; sockets := 0; closed := []; timers := [] |}.

Definition connectWebSocket (st : State) : State :=
  {| wsRef := Some (sockets st); sockets := S (sockets st);
     closed := closed st; timers := timers st |}.

(** [onerror = () => { setTimeout(connectWebSocket, 3000); }] *)
Definition onerror (now : Z) (st : State) : State :=
  {| wsRef := wsRef st; sockets := sockets st; closed := closed st;
     timers := timers st ++ [now + RECONNECT_DELAY] |}.

(** The effect's cleanup: [wsRef.current?.close()].  Pending timeouts are
    not cleared. *)
Definition cleanup (st : State) : State :=
  match wsRef st with
  | Some s => {| wsRef := wsRef st; sockets := sockets st;
                 closed := closed st ++ [s]; timers := timers st |}
  | None => st
  end.

Inductive Event :=
| Mount
| ErrorEvent (socket : nat) (now : Z)
| CloseEvent (socket : nat)
| TimerFires
| Unmount.

Definition step (st : State) (ev : Event) : State :=
  match ev with
  | Mount => connectWebSocket st
  | ErrorEvent s now =>
      (* every socket built so far carries the handler *)
      if (s <? sockets st)%nat then onerror now st else st
  | CloseEvent _ => st   (* no onclose handler is installed *)
  | TimerFires =>
      match timers st with
      | [] => st
      | _ :: rest =>
          connectWebSocket {| wsRef := wsRef st; sockets := sockets st;
                              closed := closed st; timers := rest |}
      end
  | Unmount => cleanup st
  end.

Definition run (evs : list Event) : State := foldl step initial evs.

End Connection.

(** ** usePerformanceMonitor *)

Module PerformanceMonitor.
Import Host.

Record PerformanceStats := {
  fps           : Z;
  memoryUsedMB  : Z;
  memoryTotalMB : Z;
  latencyMs     : Z;
  alerts        : list string
}.

Definition LOW_FPS : string := "⚠️ Low FPS".
Definition HIGH_MEMORY : string := "🚨 High Memory Usage".
Definition HIGH_LATENCY : string := "⚠️ High WebSocket Latency".

(** [window.performance.memory], sizes in bytes. *)
Record MemoryInfo := {
  usedJSHeapSize  : Z;
  totalJSHeapSize : Z
}.

(** [Math.round]: the nearest integer, halves upwards. *)
Definition Math_round (x : Q) : Z := Qfloor (x + (1 # 2))%Q.

(** [x > y] on numbers. *)
Definition Qgtb (x y : Q) : bool := negb (Qle_bool x y).

(** The hook's state and refs, with what it wrote to the console with
    [console.error] and sent on the socket. *)
Record Monitor := {
  stats        : PerformanceStats;
  lastFrame    : Q;
  frameCount   : Z;
  latencyStart : option Z;
  console      : list string;
  sent         : list string
}.

Definition initial_stats : PerformanceStats :=
  {| fps := 0; memoryUsedMB := 0; memoryTotalMB := 0; latencyMs := 0; alerts := [] |}.

(** State at mount; [t0] is [performance.now()] then. *)
Definition initial (t0 : Q) : Monitor :=
  {| stats := initial_stats; lastFrame := t0; frameCount := 0;
     latencyStart := None; console := []; sent := [] |}.

Definition setStats (f : PerformanceStats -> PerformanceStats) (m : Monitor) : Monitor :=
  {| stats := f (stats m); lastFrame := lastFrame m; frameCount := frameCount m;
     latencyStart := latencyStart m; console := console m; sent := sent m |}.

(** [(prev) => ({ ...prev, fps, alerts: [...(fps < 30 ? [LOW_FPS] : [])] })] *)
Definition fps_updater (fps_ : Z) (prev : PerformanceStats) : PerformanceStats :=
  {| fps := fps_; memoryUsedMB := memoryUsedMB prev;
     memoryTotalMB := memoryTotalMB prev; latencyMs := latencyMs prev;
     alerts := if fps_ <? 30 then [LOW_FPS] else [] |}.

(** The memory sampler's updater; the threshold reads the unrounded [used]. *)
Definition memory_updater (used total : Q) (prev : PerformanceStats) : PerformanceStats :=
  {| fps := fps prev; memoryUsedMB := Math_round used;
     memoryTotalMB := Math_round total; latencyMs := latencyMs prev;
     alerts := List.filter (fun a => negb (includes "Memory" a)) (alerts prev)
               ++ (if Qgtb used 400 then [HIGH_MEMORY] else []) |}.

(** The pong handler's updater. *)
Definition latency_updater (latency : Z) (prev : PerformanceStats) : PerformanceStats :=
  {| fps := fps prev; memoryUsedMB := memoryUsedMB prev;
     memoryTotalMB := memoryTotalMB prev; latencyMs := latency;
     alerts := List.filter (fun a => negb (includes "Latency" a)) (alerts prev)
               ++ (if latency >? 200 then [HIGH_LATENCY] else []) |}.

(** One [requestAnimationFrame] callback. *)
Definition loop (now : Q) (m : Monitor) : Monitor :=
  let count := frameCount m + 1 in
  if Qle_bool 1000 (now - lastFrame m)%Q then
    setStats (fps_updater count)
      {| stats := stats m; lastFrame := now; frameCount := 0;
         latencyStart := latencyStart m; console := console m; sent := sent m |}
  else
    {| stats := stats m; lastFrame := lastFrame m; frameCount := count;
       latencyStart := latencyStart m; console := console m; sent := sent m |}.

(** One tick of the 3 s interval; [mem] is [None] where the host has no
    [performance.memory]. *)
Definition memoryTick (mem : option MemoryInfo) (m : Monitor) : Monitor :=
  match mem with
  | Some info =>
      let used := (inject_Z (usedJSHeapSize info) / inject_Z 1048576)%Q in
      let total := (inject_Z (totalJSHeapSize info) / inject_Z 1048576)%Q in
      setStats (memory_updater used total) m
  | None => m
  end.

Inductive ReadyState := CONNECTING | OPEN | CLOSING | CLOSED.

(** One tick of the 5 s ping interval; [now] is [Date.now()]. *)
Definition pingTick (readyState : ReadyState) (now : Z) (m : Monitor) : Monitor :=
  match readyState with
  | OPEN =>
      {| stats := stats m; lastFrame := lastFrame m; frameCount := frameCount m;
         latencyStart := Some now; console := console m;
         sent := sent m ++ ["ping"%string] |}
  | _ => m
  end.

Definition invalid_message (e : MessageEvent) (m : Monitor) : Monitor :=
  {| stats := stats m; lastFrame := lastFrame m; frameCount := frameCount m;
     latencyStart := latencyStart m;
     console := console m ++ [("Invalid message: " ++ e_data e)%string];
     sent := sent m |}.

(** The [message] listener.  The body runs inside [try]; a SyntaxError of
    [JSON.parse] and the TypeError of [null.type] both end in the [catch].
    The pending stamp is tested for truthiness: [null] and [0] are falsy. *)
Definition onMessage (e : MessageEvent) (now : Z) (m : Monitor) : Monitor :=
  match e_json e with
  | SyntaxError => invalid_message e m
  | Parsed JNull => invalid_message e m
  | Parsed (JObject o) =>
      match latencyStart m with
      | Some start =>
          if bool_decide (o_type o = Some "pong"%string) && negb (start =? 0) then
            let latency := now - start in
            setStats (latency_updater latency)
              {| stats := stats m; lastFrame := lastFrame m;
                 frameCount := frameCount m; latencyStart := None;
                 console := console m; sent := sent m |}
          else m
      | None => m
      end
  end.

End PerformanceMonitor.

(** ** Concrete inputs used below *)

Module Scenario.
Import Host.

Definition dq : string := String "034"%char EmptyString.

(** The text [{"k":v}] pieces of a frame. *)
Definition field (k v : string) : string := (dq ++ k ++ dq ++ ":" ++ v)%string.
Definition quoted (v : string) : string := (dq ++ v ++ dq)%string.

(** A metric frame of site [k] with [views] page views; [wire] is the
    time stamp the sender put in the payload, if any. *)
Definition metric_value (k : string) (views : Z) (wire : option Z) : JsValue :=
  JObject {| o_type := None; o_siteId := Some k; o_siteName := Some k;
             o_pageViews := Some views; o_timestamp := wire; o_id := None |}.

Definition metric_text (k : string) (views : Z) (wire : option Z) : string :=
  ("{" ++ field "siteId" (quoted k) ++ "," ++ field "siteName" (quoted k)
   ++ "," ++ field "pageViews" (pretty views)
   ++ match wire with
      | Some t => "," ++ field "timestamp" (pretty t)
      | None => ""
      end ++ "}")%string.

Definition metric_at (k : string) (views : Z) (wire : option Z) : MessageEvent :=
  {| e_data := metric_text k views wire; e_json := Parsed (metric_value k views wire) |}.

Definition metric (k : string) (views : Z) : MessageEvent := metric_at k views None.

(** The reply [{"type":"pong"}]. *)
Definition pong : MessageEvent :=
  {| e_data := ("{" ++ field "type" (quoted "pong") ++ "}")%string;
     e_json := Parsed (JObject {| o_type := Some "pong"%string; o_siteId := None;
                                  o_siteName := None; o_pageViews := None;
                                  o_timestamp := None; o_id := None |}) |}.

(** A frame that is not JSON. *)
Definition garbage : MessageEvent :=
  {| e_data := "{oops"; e_json := SyntaxError |}.

(** The [i]-th frame of a burst for site [k]: received at time [i], with
    random draw [i]. *)
Definition nth_arrival (k : string) (i : nat) : Dashboard.Arrival :=
  {| Dashboard.a_event := metric k (Z.of_nat i);
     Dashboard.a_now := Z.of_nat i;
     Dashboard.a_rnd := N.of_nat i |}.

(** Frames number [from .. from + n - 1] of site [k]. *)
Definition burst (k : string) (from n : nat) : list Dashboard.Arrival :=
  nth_arrival k <$> seq from n.

(** A first frame carrying [views], then 201 more of the same site. *)
Definition history (views : Z) : list Dashboard.Arrival :=
  {| Dashboard.a_event := metric "a" views; Dashboard.a_now := 0;
     Dashboard.a_rnd := 0 |} :: burst "a" 1 201.

(** The point the Dashboard stores for [nth_arrival k i]. *)
Definition point (k : string) (i : nat) : Dashboard.DataPoint :=
  Dashboard.enrich (metric_value k (Z.of_nat i) None) (Z.of_nat i) (N.of_nat i).

(** A site whose series holds 201 points, and a later point that carries
    the id of its tail. *)
Definition full_site : Dashboard.Site :=
  {| Dashboard.s_siteId := Some "a"%string; Dashboard.s_siteName := Some "a"%string;
     Dashboard.s_data := point "a" <$> seq 0 201 |}.

Definition same_id_as_tail : Dashboard.DataPoint :=
  Dashboard.enrich (metric_value "a" 200 None) 999 200.

(** Three frames whose payload time stamps run backwards while they are
    received at times 10, 20, 20. *)
Definition backwards : list Dashboard.Arrival :=
  [ {| Dashboard.a_event := metric_at "a" 1 (Some 900);
       Dashboard.a_now := 10; Dashboard.a_rnd := 1 |};
    {| Dashboard.a_event := metric_at "a" 2 (Some 500);
       Dashboard.a_now := 20; Dashboard.a_rnd := 2 |};
    {| Dashboard.a_event := metric_at "a" 3 (Some 100);
       Dashboard.a_now := 20; Dashboard.a_rnd := 3 |} ].

(** Sixty animation frames spread over one second: the last callback
    arrives 1000 ms after the mount and reports 60 frames. *)
Definition one_second_at_60 : list Q :=
  (fun i => (inject_Z (Z.of_nat i) * (50 # 3))%Q) <$> seq 1 60.

Definition frames (times : list Q) (m : PerformanceMonitor.Monitor)
  : PerformanceMonitor.Monitor :=
  foldl (fun m now => PerformanceMonitor.loop now m) m times.

(** Heap readings in bytes: 400.2 MB and 500 MB used. *)
Definition heap_400_2 : PerformanceMonitor.MemoryInfo :=
  {| PerformanceMonitor.usedJSHeapSize := 419640115;
     PerformanceMonitor.totalJSHeapSize := 629145600 |}.
Definition heap_500 : PerformanceMonitor.MemoryInfo :=
  {| PerformanceMonitor.usedJSHeapSize := 524288000;
     PerformanceMonitor.totalJSHeapSize := 629145600 |}.

(** A monitor that has seen a 500 MB heap and a 250 ms round trip. *)
Definition loaded_monitor : PerformanceMonitor.Monitor :=
  PerformanceMonitor.onMessage pong 1250
    (PerformanceMonitor.pingTick PerformanceMonitor.OPEN 1000
       (PerformanceMonitor.memoryTick (Some heap_500) (PerformanceMonitor.initial 0))).

(** The ping leaves when [Date.now()] reads 0, the pong comes back at 250. *)
Definition ping_at_0_pong_at_250 : PerformanceMonitor.Monitor :=
  PerformanceMonitor.onMessage pong 250
    (PerformanceMonitor.pingTick PerformanceMonitor.OPEN 0 (PerformanceMonitor.initial 0)).

(** The same exchange 1000 ms later. *)
Definition ping_at_1000_pong_at_1250 : PerformanceMonitor.Monitor :=
  PerformanceMonitor.onMessage pong 1250
    (PerformanceMonitor.pingTick PerformanceMonitor.OPEN 1000 (PerformanceMonitor.initial 0)).

End Scenario.

(** ** What a run has received *)

Module Ingest.
Import Host Dashboard.

(** The point [onmessage] builds for a frame; none for a frame that does
    not parse. *)
Definition point_of (a : Arrival) : option DataPoint :=
  match e_json (a_event a) with
  | Parsed v => Some (enrich v (a_now a) (a_rnd a))
  | SyntaxError => None
  end.

(** The points built along a run, in arrival order. *)
Definition points (arrivals : list Arrival) : list DataPoint := omap point_of arrivals.

(** Those of one site. *)
Definition of_site (k : option string) (ps : list DataPoint) : list DataPoint :=
  filter (fun d => siteId d = k) ps.

(** What identifies a site button: id and display name. *)
Definition key (s : Site) : option string * option string := (s_siteId s, s_siteName s).

(** Every series is non-empty and holds only points of its own site. *)
Definition own_points (s : Site) : Prop :=
  s_data s <> [] /\ Forall (fun d => siteId d = s_siteId s) (s_data s).

End Ingest.

Module UseWebSocketLoop.
Import Host.

(** The event loop of the hook: a frame whose handler throws leaves the
    list as it was. *)
Definition deliver (data : list JsValue) (event : MessageEvent) : list JsValue :=
  match UseWebSocket.onmessage event data with
  | Returned data' => data'
  | Uncaught _ => data
  end.

(** The hook starts from [useState([])]. *)
Definition run (events : list MessageEvent) : list JsValue := foldl deliver [] events.

(** The values of the frames that parse, in arrival order. *)
Definition value_of (event : MessageEvent) : option JsValue :=
  match e_json event with
  | Parsed v => Some v
  | SyntaxError => None
  end.

Definition values (events : list MessageEvent) : list JsValue := omap value_of events.

End UseWebSocketLoop.

(** ** The callbacks of the performance monitor as a trace *)

Module MonitorLoop.
Import Host PerformanceMonitor.

(** The callbacks the hook registers: the animation frame, the 3 s memory
    interval, the 5 s ping interval and the socket's [message] listener. *)
Inductive Event :=
| Frame (now : Q)
| MemorySample (mem : option MemoryInfo)
| Ping (readyState : ReadyState) (now : Z)
| Message (e : MessageEvent) (now : Z).

Definition step (m : Monitor) (ev : Event) : Monitor :=
  match ev with
  | Frame now => loop now m
  | MemorySample mem => memoryTick mem m
  | Ping readyState now => pingTick readyState now m
  | Message e now => onMessage e now m
  end.

Definition run (t0 : Q) (evs : list Event) : Monitor := foldl step (initial t0) evs.

Definition known_alerts : list string := [LOW_FPS; HIGH_MEMORY; HIGH_LATENCY].

(** Alerts of one list are distinct and among the three the hook raises. *)
Definition tidy (l : list string) : Prop :=
  List.NoDup l /\ (forall a, In a l -> In a known_alerts).

Definition is_open_ping (ev : Event) : bool :=
  match ev with
  | Ping OPEN _ => true
  | _ => false
  end.

(** A frame the listener rejects: it does not parse, or it is [null]. *)
Definition is_invalid (ev : Event) : bool :=
  match ev with
  | Message e _ =>
      match e_json e with
      | SyntaxError | Parsed JNull => true
      | Parsed (JObject _) => false
      end
  | _ => false
  end.

(** A frame that parses to an object whose [type] is "pong". *)
Definition is_pong (e : MessageEvent) : Prop :=
  exists o, e_json e = Parsed (JObject o) /\ o_type o = Some "pong"%string.

End MonitorLoop.

(** ** The frame sampler over the host's floating-point subtraction *)

Module FrameSampler.
Import PerformanceMonitor.




End FrameSampler.

(** ** Counting the events of the socket life cycle *)

Module ConnectionTrace.
Import Connection.

Definition is_mount (ev : Event) : bool :=
  match ev with
  | Mount => true
  | _ => false
  end.

Definition is_error (ev : Event) : bool :=
  match ev with
  | ErrorEvent _ _ => true
  | _ => false
  end.

Definition mounts (evs : list Event) : nat := length (List.filter is_mount evs).
Definition errors (evs : list Event) : nat := length (List.filter is_error evs).

(** The socket built last, if any. *)
Definition latest_socket (st : State) : option nat :=
  match sockets st with
  | O => None
  | S n => Some n
  end.

(** [wsRef] holds the socket built last and only sockets that exist have
    been closed. *)
Definition sound (st : State) : Prop :=
  wsRef st = latest_socket st /\ Forall (fun s => (s < sockets st)%nat) (closed st).

End ConnectionTrace.

(** ** useDataProcessor *)

Module DataProcessor.
Import Host.

(** [{ ...item, processed: Date.now(), cache: new Array(50000).fill(...) }] *)
Record Processed := {
  item      : JsObject;
  processed : Z;
  cache     : list Z
}.

Definition chunkSize : nat := 100.
Definition CACHE_LENGTH : nat := Z.to_nat 50000.

(** [(item as any).pageViews || 0]: a missing count and the count 0 both
    give 0. *)
Definition pageViews_or_0 (it : JsObject) : Z :=
  match o_pageViews it with
  | Some views => views
  | None => 0
  end.

(** The hook's state. *)
Record Hook := {
  processedData : list Processed;
  processing    : bool
}.

Definition initial : Hook := {| processedData := []; processing := false |}.

(** The variables one call of [processData] closes over.  The hook is
    generic ([T = any]): an item is any value, and [JNull] stands for the
    items [null] and [undefined], on which a property access throws. *)
Record Job := {
  j_data : list JsValue;
  result : list Processed;
  index  : nat
}.

(** What the map builds for an object at position [i] of the input;
    [now i] is the [Date.now()] reading taken for that item. *)
Definition process (now : nat -> Z) (i : nat) (it : JsObject) : Processed :=
  {| item := it; processed := now i;
     cache := replicate CACHE_LENGTH (pageViews_or_0 it) |}.

(** [items.map(item => ...)] from position [i] on: [None] when the
    callback throws the TypeError of [(item as any).pageViews] at an item
    that is [null] or [undefined]. *)
Fixpoint map_items (now : nat -> Z) (i : nat) (items : list JsValue)
  : option (list Processed) :=
  match items with
  | [] => Some []
  | JNull :: _ => None
  | JObject it :: rest =>
      match map_items now (S i) rest with
      | Some out => Some (process now i it :: out)
      | None => None
      end
  end.

(** [processData(data)] up to its [requestIdleCallback(processChunk)]: the
    job waits for an idle callback. *)
Definition processData (data : list JsValue) (h : Hook) : option Job * Hook :=
  (Some {| j_data := data; result := []; index := 0 |},
   {| processedData := processedData h; processing := true |}).

(** One run of [processChunk].  When it returns: [Some] job if it has
    asked for another idle callback, [None] if it has published the
    result.  When the map throws, nothing has been assigned yet. *)
Definition processChunk (now : nat -> Z) (j : Job) (h : Hook)
  : Completion (option Job * Hook) :=
  match map_items now (index j) (take chunkSize (drop (index j) (j_data j))) with
  | None => Uncaught "TypeError"
  | Some chunk =>
      let result' := result j ++ chunk in
      let index' := (index j + chunkSize)%nat in
      Returned
        (if (index' <? length (j_data j))%nat
         then (Some {| j_data := j_data j; result := result'; index := index' |}, h)
         else (None, {| processedData := result'; processing := false |}))
  end.

(** One idle period runs the pending callback, if there is one.  A
    callback that throws has scheduled no other and has left the hook as
    it was. *)
Definition idle_step (now : nat -> Z) (s : option Job * Hook) : option Job * Hook :=
  match s with
  | (Some j, h) =>
      match processChunk now j h with
      | Returned s' => s'
      | Uncaught _ => (None, h)
      end
  | (None, h) => (None, h)
  end.

(** [n] idle periods. *)
Fixpoint idle (n : nat) (now : nat -> Z) (s : option Job * Hook) : option Job * Hook :=
  match n with
  | O => s
  | S n' => idle n' now (idle_step now s)
  end.

(** The idle callbacks a job of [total] items takes: one per started
    hundred, and one for an empty input. *)
Definition callbacks (total : nat) : nat := Nat.max 1 ((total + 99) / 100).

(** The whole output for an input of objects. *)
Definition outputs (now : nat -> Z) (objects : list JsObject) : list Processed :=
  imap (process now) objects.

(** With a [null] item at position [p], a job that has not passed [p]
    never publishes: every idle period leaves the hook as it is and the
    job either not past [p] or gone. *)
Definition stuck_before (p : nat) (data : list JsValue) (h : Hook)
    (s : option Job * Hook) : Prop :=
  snd s = h /\
  match fst s with
  | Some j => j_data j = data /\ (index j <= p)%nat
  | None => True
  end.

End DataProcessor.

(** ** More concrete inputs *)

Module MoreScenario.
Import Host.

(** Frames of two sites with a frame that is not JSON and a pong between
    them; the random draws differ. *)
Definition mixed : list Dashboard.Arrival :=
  [ Scenario.nth_arrival "a" 1;
    {| Dashboard.a_event := Scenario.garbage; Dashboard.a_now := 2; Dashboard.a_rnd := 2 |};
    Scenario.nth_arrival "b" 3;
    {| Dashboard.a_event := Scenario.pong; Dashboard.a_now := 4; Dashboard.a_rnd := 4 |};
    Scenario.nth_arrival "a" 5 ].

(** Two frames of one site; the clock reads 20 for the first and has
    stepped back to 10 for the second. *)
Definition clock_steps_back : list Dashboard.Arrival :=
  [ {| Dashboard.a_event := Scenario.metric "a" 1; Dashboard.a_now := 20;
       Dashboard.a_rnd := 1 |};
    {| Dashboard.a_event := Scenario.metric "a" 2; Dashboard.a_now := 10;
       Dashboard.a_rnd := 2 |} ].

(** 250 items to process, the [i]-th with [i] page views, and a clock
    that reads [1000 + i] for the [i]-th item. *)
Definition items : list JsObject :=
  (fun i => {| o_type := None; o_siteId := Some "a"%string; o_siteName := Some "a"%string;
               o_pageViews := Some (Z.of_nat i); o_timestamp := None; o_id := None |})
    <$> seq 0 250.

Definition item_clock (i : nat) : Z := 1000 + Z.of_nat i.

(** An input whose second item is [null]. *)
Definition with_null : list JsValue :=
  [ Scenario.metric_value "a" 1 None; JNull; Scenario.metric_value "a" 3 None ].

End MoreScenario.


(** * Properties of the Dashboard's windows *)

Module DashboardFacts.
Import Host Dashboard.

Lemma slice_neg_length {A} (n : nat) (arr : list A) :
  (length (slice_neg n arr) <= n)%nat.
Proof. unfold slice_neg. rewrite length_drop. lia. Qed.

Lemma slice_neg_short {A} (n : nat) (arr : list A) :
  (length arr <= n)%nat -> slice_neg n arr = arr.
Proof.
  intros Hle. unfold slice_neg.
  replace (length arr - n)%nat with 0%nat by lia. reflexivity.
Qed.

Lemma last_id_snoc w e : last_id (w ++ [e]) = Some (id e).
Proof. unfold last_id. rewrite last_snoc. reflexivity. Qed.

(** Any property kept by [deliver] holds along every run. *)
Lemma run_from_preserves (P : State -> Prop) :
  (forall st a, P st -> P (deliver st a)) ->
  forall arrivals st, P st -> P (run_from st arrivals).
Proof.
  intros Hstep arrivals. unfold run_from.
  induction arrivals as [|a rest IH]; intros st Hst; simpl; [exact Hst|].
  apply IH, Hstep, Hst.
Qed.

Lemma setData_updater_length e prev :
  (length prev <= S MAX_POINTS)%nat ->
  (length (setData_updater e prev) <= S MAX_POINTS)%nat.
Proof.
  intros Hprev. unfold setData_updater.
  destruct (_ && _); [exact Hprev|].
  rewrite length_app. simpl.
  pose proof (slice_neg_length MAX_POINTS prev). lia.
Qed.

Lemma setSites_updater_length e prev :
  Forall (fun s => (length (s_data s) <= S MAX_POINTS)%nat) prev ->
  Forall (fun s => (length (s_data s) <= S MAX_POINTS)%nat) (setSites_updater e prev).
Proof.
  intros Hprev. unfold setSites_updater.
  destruct (list_find _ prev) as [[index site]|].
  - destruct (_ && _); [exact Hprev|].
    apply Forall_insert; [exact Hprev|]. simpl.
    rewrite length_app. simpl.
    pose proof (slice_neg_length MAX_POINTS (s_data site)). lia.
  - apply Forall_app. split; [exact Hprev|].
    constructor; [|constructor]. simpl. unfold MAX_POINTS. lia.
Qed.

Lemma deliver_within st a :
  within (S MAX_POINTS) st -> within (S MAX_POINTS) (deliver st a).
Proof.
  intros [Hd Hs]. unfold deliver, onmessage.
  destruct (e_json (a_event a)); [split; assumption|].
  split; simpl.
  - apply setData_updater_length, Hd.
  - apply setSites_updater_length, Hs.
Qed.

Lemma window_elem k st :
  window k st = [] \/ exists site, site ∈ sites st /\ window k st = s_data site.
Proof.
  unfold window.
  destruct (list_find _ (sites st)) as [[i site]|] eqn:Hfind; [|left; reflexivity].
  right. exists site. split; [|reflexivity].
  apply list_find_Some in Hfind as (Hl & _ & _).
  eapply list_elem_of_lookup_2, Hl.
Qed.

(** C9: along every run, each site's series and the global list hold at
    most MAX_POINTS + 1 = 201 entries, and a run of 201 frames of one
    site fills both to exactly 201, so 200 is not a bound. *)
Theorem series_bound_201 :
  (forall arrivals,
      (forall site, site ∈ sites (run arrivals) -> (length (s_data site) <= 201)%nat) /\
      (forall k, (length (window k (run arrivals)) <= 201)%nat) /\
      (length (data (run arrivals)) <= 201)%nat) /\
  length (window (Some "a"%string) (run (Scenario.burst "a" 0 201))) = 201%nat /\
  length (data (run (Scenario.burst "a" 0 201))) = 201%nat.
Proof.
  split; [|split; vm_compute; reflexivity].
  intros arrivals.
  assert (Hin : within (S MAX_POINTS) (run arrivals)).
  { unfold run. apply (run_from_preserves (within (S MAX_POINTS))).
    - apply deliver_within.
    - split; simpl; [lia | constructor]. }
  destruct Hin as [Hd Hs]. change (S MAX_POINTS) with 201%nat in *.
  rewrite Forall_forall in Hs.
  split; [exact Hs|]. split; [|exact Hd].
  intros k. destruct (window_elem k (run arrivals)) as [->|(site & Hin & ->)].
  - simpl. lia.
  - apply Hs, Hin.
Qed.

Lemma stamped_by_mono t t' w : t <= t' -> stamped_by t w -> stamped_by t' w.
Proof.
  intros Hle [Hs Hb]. split; [exact Hs|].
  eapply Forall_impl; [exact Hb|]. simpl. intros d Hd. lia.
Qed.

Lemma stamped_mono t t' st : t <= t' -> stamped t st -> stamped t' st.
Proof.
  intros Hle Hst. unfold stamped in *.
  eapply Forall_impl; [exact Hst|]. intros s. apply stamped_by_mono, Hle.
Qed.

(** Dropping a prefix and appending a point stamped no earlier than the
    rest keeps a series in order. *)
Lemma stamped_by_slice_snoc n t w e :
  stamped_by t w -> t <= timestamp e ->
  stamped_by (timestamp e) (slice_neg n w ++ [e]).
Proof.
  intros [Hs Hb] Hle. unfold slice_neg. set (k := (length w - n)%nat).
  assert (Hdrop : Forall (fun d => timestamp d <= timestamp e) (drop k w)).
  { apply Forall_drop. eapply Forall_impl; [exact Hb|]. simpl. intros d Hd. lia. }
  split.
  - unfold timestamps in *. rewrite fmap_app, fmap_drop. simpl.
    apply StronglySorted_app_2.
    + intros x1 x2 Hx1 Hx2. apply list_elem_of_singleton in Hx2 as ->.
      rewrite <- fmap_drop in Hx1.
      apply list_elem_of_fmap in Hx1 as (d & -> & Hd).
      rewrite Forall_forall in Hdrop. apply Hdrop, Hd.
    + rewrite <- (take_drop k (timestamp <$> w)) in Hs.
      apply StronglySorted_app_1_r in Hs. exact Hs.
    + repeat constructor.
  - apply Forall_app. split; [exact Hdrop|].
    constructor; [lia | constructor].
Qed.

Lemma setSites_updater_stamped t e prev :
  Forall (fun s => stamped_by t (s_data s)) prev -> t <= timestamp e ->
  Forall (fun s => stamped_by (timestamp e) (s_data s)) (setSites_updater e prev).
Proof.
  intros Hprev Hle.
  assert (Hold : Forall (fun s => stamped_by (timestamp e) (s_data s)) prev).
  { eapply Forall_impl; [exact Hprev|]. intros s. apply stamped_by_mono, Hle. }
  unfold setSites_updater.
  destruct (list_find _ prev) as [[index site]|] eqn:Hfind.
  - destruct (_ && _); [exact Hold|].
    apply Forall_insert; [exact Hold|]. simpl.
    apply list_find_Some in Hfind as (Hl & _ & _).
    apply (stamped_by_slice_snoc _ t); [|exact Hle].
    rewrite Forall_lookup in Hprev. exact (Hprev index site Hl).
  - apply Forall_app. split; [exact Hold|].
    constructor; [|constructor]. simpl. split.
    + repeat constructor.
    + constructor; [lia | constructor].
Qed.

Lemma deliver_stamped t st a :
  stamped t st -> t <= a_now a -> stamped (a_now a) (deliver st a).
Proof.
  intros Hst Hle. unfold deliver, onmessage.
  destruct (e_json (a_event a)) as [|v].
  - eapply stamped_mono; [exact Hle | exact Hst].
  - unfold stamped. simpl.
    apply (setSites_updater_stamped t (enrich v (a_now a) (a_rnd a))); assumption.
Qed.

Lemma run_from_stamped arrivals : forall t st,
  stamped t st ->
  StronglySorted Z.le (a_now <$> arrivals) ->
  Forall (fun a => t <= a_now a) arrivals ->
  exists t', stamped t' (run_from st arrivals).
Proof.
  induction arrivals as [|a rest IH]; intros t st Hst Hsorted Hafter.
  - exists t. exact Hst.
  - simpl in Hsorted. apply StronglySorted_inv in Hsorted as [Hrest Hhead].
    apply Forall_cons in Hafter as [Ha _].
    apply (IH (a_now a) (deliver st a)).
    + apply (deliver_stamped t); assumption.
    + exact Hrest.
    + rewrite Forall_fmap in Hhead. exact Hhead.
Qed.

(** C10 as stated fails: when the clock steps back between two frames of
    a site, the stored time stamps are out of order. *)
Lemma clock_stepping_back_unsorts :
  timestamps (window (Some "a"%string) (run MoreScenario.clock_steps_back)) = [20; 10] /\
  ~ Sorted Z.le (timestamps (window (Some "a"%string) (run MoreScenario.clock_steps_back))).
Proof.
  assert (Hstamps : timestamps (window (Some "a"%string)
                                  (run MoreScenario.clock_steps_back)) = [20; 10])
    by reflexivity.
  split; [exact Hstamps|]. rewrite Hstamps. intros Hsorted.
  apply Sorted_inv in Hsorted as [_ Hhead]. apply HdRel_inv in Hhead. lia.
Qed.

(** C10, amended: the stored time stamp and id are the receipt time and the
    random draw, whatever the payload carried; and provided the receipt
    times read for successive frames do not decrease, every site's series
    is non-decreasing in its time stamps. *)
Theorem receipt_stamps_ordered (arrivals : list Arrival) :
  Sorted Z.le (a_now <$> arrivals) ->
  (forall v now rnd,
      timestamp (enrich v now rnd) = now /\ id (enrich v now rnd) = rnd) /\
  (forall k, Sorted Z.le (timestamps (window k (run arrivals)))).
Proof.
  intros Hclock. split; [intros v now rnd; split; reflexivity|].
  intros k.
  apply (Sorted_StronglySorted Z.le) in Hclock.
  assert (Hrun : exists t, stamped t (run arrivals)).
  { destruct arrivals as [|a rest].
    - exists 0. constructor.
    - apply (run_from_stamped (a :: rest) (a_now a)).
      + constructor.
      + exact Hclock.
      + simpl in Hclock. apply StronglySorted_inv in Hclock as [_ Hhead].
        constructor; [lia|]. rewrite Forall_fmap in Hhead. exact Hhead. }
  destruct Hrun as [t Hst].
  destruct (window_elem k (run arrivals)) as [->|(site & Hin & ->)].
  - constructor.
  - unfold stamped in Hst. rewrite Forall_forall in Hst.
    apply StronglySorted_Sorted, (Hst site Hin).
Qed.

Lemma receipt_stamps_ordered_witness :
  Sorted Z.le (a_now <$> Scenario.backwards) /\
  timestamps (window (Some "a"%string) (run Scenario.backwards)) = [10; 20; 20] /\
  Sorted Z.le (timestamps (window (Some "a"%string) (run Scenario.backwards))).
Proof.
  assert (Hclock : Sorted Z.le (a_now <$> Scenario.backwards)).
  { simpl. repeat constructor; lia. }
  split; [exact Hclock|]. split; [reflexivity|].
  apply (receipt_stamps_ordered Scenario.backwards Hclock).
Defined.

(** C1: 201 frames of one site leave 201 points in its series, one more
    than MAX_POINTS; only the 202nd frame evicts the oldest point. *)
Theorem series_exceeds_MAX_POINTS :
  (MAX_POINTS < length (window (Some "a"%string) (run (Scenario.burst "a" 0 201))))%nat /\
  timestamps (window (Some "a"%string) (run (Scenario.burst "a" 0 202)))
    = Z.of_nat <$> seq 1 201.
Proof.
  split.
  - assert (Hlen : length (window (Some "a"%string) (run (Scenario.burst "a" 0 201)))
                   = 201%nat) by (vm_compute; reflexivity).
    rewrite Hlen. unfold MAX_POINTS. lia.
  - vm_compute. reflexivity.
Qed.

(** C2: two histories of 202 frames that differ only in the page views of
    the first frame, the one that is evicted, end in the same component
    state: its series holds 201 points and nothing records the evicted
    value. *)
Theorem evicted_point_leaves_no_trace :
  run (Scenario.history 7777) = run (Scenario.history 9999) /\
  length (Scenario.history 7777) = 202%nat /\
  length (window (Some "a"%string) (run (Scenario.history 7777))) = 201%nat /\
  Some 7777 ∉ (pageViews <$> window (Some "a"%string) (run (Scenario.history 7777))).
Proof.
  split; [vm_compute; reflexivity|].
  split; [vm_compute; reflexivity|].
  split; [vm_compute; reflexivity|].
  apply (bool_decide_unpack _). vm_compute. reflexivity.
Qed.

(** C3 as stated fails: a frame delivered twice with the same id as the
    tail is stored twice while the series is short. *)
Lemma duplicate_tail_is_appended :
  last_id (window (Some "a"%string) (run [Scenario.nth_arrival "a" 7]))
    = Some (a_rnd (Scenario.nth_arrival "a" 7)) /\
  length (window (Some "a"%string) (run [Scenario.nth_arrival "a" 7])) = 1%nat /\
  length (window (Some "a"%string)
            (run [Scenario.nth_arrival "a" 7; Scenario.nth_arrival "a" 7])) = 2%nat.
Proof. repeat split; vm_compute; reflexivity. Qed.

(** C3, amended: for a point whose id is the id of the tail of its site's
    series, the update returns the previous [sites] unchanged when that
    series holds 201 points; when it holds at most 200 the point is
    appended. *)
Theorem tail_check_fires_when_full e prev index site :
  list_find (fun s => s_siteId s = siteId e) prev = Some (index, site) ->
  last_id (s_data site) = Some (id e) ->
  (length (s_data site) = S MAX_POINTS -> setSites_updater e prev = prev) /\
  ((length (s_data site) <= MAX_POINTS)%nat ->
   setSites_updater e prev
     = <[index := {| s_siteId := s_siteId site; s_siteName := s_siteName site;
                     s_data := s_data site ++ [e] |}]> prev).
Proof.
  intros Hfind Htail. unfold setSites_updater. rewrite Hfind. simpl.
  rewrite !last_id_snoc, Htail.
  rewrite (bool_decide_eq_true_2 (Some (id e) = Some (id e))) by reflexivity.
  rewrite andb_true_r, length_app. simpl. split; intros Hlen.
  - rewrite bool_decide_eq_true_2; [reflexivity|].
    unfold slice_neg. rewrite length_drop. lia.
  - rewrite (slice_neg_short MAX_POINTS) by exact Hlen.
    rewrite bool_decide_eq_false_2 by lia. reflexivity.
Qed.

Lemma tail_check_fires_when_full_witness :
  list_find (fun s => s_siteId s = siteId Scenario.same_id_as_tail) [Scenario.full_site]
    = Some (0%nat, Scenario.full_site) /\
  last_id (s_data Scenario.full_site) = Some (id Scenario.same_id_as_tail) /\
  length (s_data Scenario.full_site) = S MAX_POINTS /\
  setSites_updater Scenario.same_id_as_tail [Scenario.full_site] = [Scenario.full_site].
Proof.
  assert (Hfind : list_find (fun s => s_siteId s = siteId Scenario.same_id_as_tail)
                    [Scenario.full_site] = Some (0%nat, Scenario.full_site))
    by (vm_compute; reflexivity).
  assert (Htail : last_id (s_data Scenario.full_site) = Some (id Scenario.same_id_as_tail))
    by (vm_compute; reflexivity).
  assert (Hlen : length (s_data Scenario.full_site) = S MAX_POINTS)
    by (vm_compute; reflexivity).
  split; [exact Hfind|]. split; [exact Htail|]. split; [exact Hlen|].
  exact (proj1 (tail_check_fires_when_full _ _ _ _ Hfind Htail) Hlen).
Defined.

End DashboardFacts.

(** * Properties of the reconnect logic *)

Module ConnectionFacts.
Import Connection.

(** C7 as stated fails: two error events ten milliseconds apart leave two
    reconnect timers pending, and a close event alone schedules none. *)
Lemma two_errors_two_timers :
  timers (run [Mount; ErrorEvent 0 0; ErrorEvent 0 10]) = [3000; 3010] /\
  ~ (length (timers (run [Mount; ErrorEvent 0 0; ErrorEvent 0 10])) <= 1)%nat /\
  run [Mount; CloseEvent 0] = run [Mount].
Proof.
  split; [reflexivity|]. split; [|reflexivity].
  change (timers (run [Mount; ErrorEvent 0 0; ErrorEvent 0 10])) with [3000; 3010].
  simpl. lia.
Qed.

(** C7, amended: an error event on a socket adds exactly one timer, due
    3000 ms later, whatever is already pending; a close event changes
    nothing; a timer that fires is removed and opens exactly one socket. *)
Theorem one_timer_per_error (st : State) :
  (forall s now, (s < sockets st)%nat ->
     timers (step st (ErrorEvent s now)) = timers st ++ [now + 3000] /\
     sockets (step st (ErrorEvent s now)) = sockets st) /\
  (forall s, step st (CloseEvent s) = st) /\
  (forall due rest, timers st = due :: rest ->
     timers (step st TimerFires) = rest /\
     sockets (step st TimerFires) = S (sockets st) /\
     wsRef (step st TimerFires) = Some (sockets st)).
Proof.
  split; [|split].
  - intros s now Hs. simpl.
    destruct (Nat.ltb_spec s (sockets st)) as [_|Hge]; [|lia].
    split; reflexivity.
  - intros s. reflexivity.
  - intros due rest Htimers. simpl. rewrite Htimers. repeat split.
Qed.

Lemma one_timer_per_error_witness :
  (0 < sockets (run [Mount; ErrorEvent 0 0]))%nat /\
  timers (run [Mount; ErrorEvent 0 0]) = [3000] /\
  timers (step (run [Mount; ErrorEvent 0 0]) (ErrorEvent 0 10)) = [3000; 3010] /\
  sockets (step (run [Mount; ErrorEvent 0 0]) TimerFires) = 2%nat.
Proof.
  assert (Hs : (0 < sockets (run [Mount; ErrorEvent 0 0]))%nat) by (simpl; lia).
  assert (Ht : timers (run [Mount; ErrorEvent 0 0]) = [3000]) by reflexivity.
  split; [exact Hs|]. split; [exact Ht|]. split.
  - exact (proj1 (proj1 (one_timer_per_error (run [Mount; ErrorEvent 0 0])) 0%nat 10 Hs)).
  - exact (proj1 (proj2 (proj2 (proj2 (one_timer_per_error (run [Mount; ErrorEvent 0 0])))
                           3000 [] Ht))).
Defined.

End ConnectionFacts.

(** * Properties of the performance monitor *)

Module MonitorFacts.
Import Host PerformanceMonitor.

Lemma Qgtb_spec (x y : Q) : Qgtb x y = true <-> (y < x)%Q.
Proof.
  unfold Qgtb. rewrite negb_true_iff. split.
  - intros Hb. apply Qnot_le_lt. intros Hle.
    apply Qle_bool_iff in Hle. congruence.
  - intros Hlt. destruct (Qle_bool x y) eqn:Hb; [|reflexivity].
    apply Qle_bool_iff in Hb. exfalso. exact (Qlt_not_le _ _ Hlt Hb).
Qed.

(** An alert that a writer filters out of the previous list is in the new
    list exactly when the writer asserts it. *)
Lemma own_alert_iff (needle own : string) (raise : bool) (prev : list string) :
  includes needle own = true ->
  In own (List.filter (fun a => negb (includes needle a)) prev
          ++ (if raise then [own] else [])) <-> raise = true.
Proof.
  intros Hown. rewrite in_app_iff, filter_In, Hown. simpl. split.
  - intros [[_ Hf]|Hin]; [discriminate|].
    destruct raise; [reflexivity | destruct Hin].
  - intros ->. right. left. reflexivity.
Qed.

(** The memory and latency writers keep every alert of another category. *)
Lemma memory_updater_keeps used total prev a :
  includes "Memory" a = false -> In a (alerts prev) ->
  In a (alerts (memory_updater used total prev)).
Proof.
  intros Hother Hin. simpl. apply in_app_iff. left.
  apply filter_In. split; [exact Hin|]. rewrite Hother. reflexivity.
Qed.

Lemma latency_updater_keeps latency prev a :
  includes "Latency" a = false -> In a (alerts prev) ->
  In a (alerts (latency_updater latency prev)).
Proof.
  intros Hother Hin. simpl. apply in_app_iff. left.
  apply filter_In. split; [exact Hin|]. rewrite Hother. reflexivity.
Qed.

(** With a pending stamp other than 0, a pong stores [now - start]. *)
Lemma pong_measures_latency (m : Monitor) (start now : Z) :
  latencyStart m = Some start -> start <> 0 ->
  stats (onMessage Scenario.pong now m) = latency_updater (now - start) (stats m) /\
  latencyStart (onMessage Scenario.pong now m) = None.
Proof.
  intros Hpending Hnz. unfold onMessage. simpl. rewrite Hpending.
  destruct (Z.eqb_spec start 0) as [->|_]; [contradiction|].
  simpl. split; reflexivity.
Qed.

(** Without a pending stamp every parsed frame leaves the monitor as it is. *)
Lemma pong_without_ping_ignored (m : Monitor) (e : MessageEvent) (o : JsObject) (now : Z) :
  latencyStart m = None -> e_json e = Parsed (JObject o) -> onMessage e now m = m.
Proof. intros Hnone He. unfold onMessage. rewrite He, Hnone. reflexivity. Qed.

(** The pending stamp is tested for truthiness, so a stamp of 0, a clock
    that reads the epoch itself, would be taken for no ping at all: the
    pong at 250 leaves [latencyMs] at 0 and the stamp pending.  The same
    exchange started at 1000 measures 250. *)
Theorem ping_at_zero_is_lost :
  latencyMs (stats Scenario.ping_at_0_pong_at_250) = 0 /\
  alerts (stats Scenario.ping_at_0_pong_at_250) = [] /\
  latencyStart Scenario.ping_at_0_pong_at_250 = Some 0 /\
  latencyMs (stats Scenario.ping_at_1000_pong_at_1250) = 250 /\
  alerts (stats Scenario.ping_at_1000_pong_at_1250) = [HIGH_LATENCY] /\
  onMessage Scenario.pong 1300 Scenario.ping_at_1000_pong_at_1250
    = Scenario.ping_at_1000_pong_at_1250.
Proof. repeat split; vm_compute; reflexivity. Qed.

(** C4: a ping sent at the clock reading [t0], the origin t = 0 of the
    scenario ([Date.now()] counts milliseconds since 1970 and is not 0
    while the program runs), whose pong is observed 250 ms later stores
    [latencyMs = 250] and raises the high-latency alert; a pong that
    follows with no ping pending leaves the monitor, and so [latencyMs],
    as it is, as does any pong received while no ping is pending. *)
Theorem ping_pong_measures_250 (m : Monitor) (t0 : Z) :
  t0 <> 0 ->
  latencyMs (stats (onMessage Scenario.pong (t0 + 250) (pingTick OPEN t0 m))) = 250 /\
  In HIGH_LATENCY
     (alerts (stats (onMessage Scenario.pong (t0 + 250) (pingTick OPEN t0 m)))) /\
  (forall now,
      onMessage Scenario.pong now
        (onMessage Scenario.pong (t0 + 250) (pingTick OPEN t0 m))
      = onMessage Scenario.pong (t0 + 250) (pingTick OPEN t0 m)) /\
  (forall (idle : Monitor) now,
      latencyStart idle = None -> onMessage Scenario.pong now idle = idle).
Proof.
  intros Hnz.
  destruct (pong_measures_latency (pingTick OPEN t0 m) t0 (t0 + 250) eq_refl Hnz)
    as [Hstats Hcleared].
  assert (Hlat : t0 + 250 - t0 = 250) by lia.
  rewrite Hstats, Hlat. split; [reflexivity|]. split; [|split].
  - unfold latency_updater. cbn [alerts].
    apply (own_alert_iff "Latency" HIGH_LATENCY (250 >? 200)); reflexivity.
  - intros now. eapply pong_without_ping_ignored; [exact Hcleared | reflexivity].
  - intros idle now Hnone. eapply pong_without_ping_ignored; [exact Hnone | reflexivity].
Qed.

Lemma ping_pong_measures_250_witness :
  1000 <> 0 /\
  latencyMs (stats Scenario.ping_at_1000_pong_at_1250) = 250 /\
  In HIGH_LATENCY (alerts (stats Scenario.ping_at_1000_pong_at_1250)).
Proof.
  assert (Hnz : 1000 <> 0) by lia.
  split; [exact Hnz|].
  pose proof (ping_pong_measures_250 (initial 0) 1000 Hnz) as (Hlat & Halert & _).
  split; [exact Hlat | exact Halert].
Defined.

(** C5: with the memory and the latency alert both active, the frame
    sampler's write of 60 fps empties the alert list, although the memory
    and latency fields still read 500 MB and 250 ms. *)
Theorem fps_write_drops_other_alerts :
  alerts (stats Scenario.loaded_monitor) = [HIGH_MEMORY; HIGH_LATENCY] /\
  fps (stats (Scenario.frames Scenario.one_second_at_60 Scenario.loaded_monitor)) = 60 /\
  memoryUsedMB (stats (Scenario.frames Scenario.one_second_at_60 Scenario.loaded_monitor))
    = 500 /\
  latencyMs (stats (Scenario.frames Scenario.one_second_at_60 Scenario.loaded_monitor))
    = 250 /\
  alerts (stats (Scenario.frames Scenario.one_second_at_60 Scenario.loaded_monitor)) = [].
Proof. repeat split; vm_compute; reflexivity. Qed.

(** C6 as stated fails: a heap of 400.2 MB is reported as
    [memoryUsedMB = 400] with the memory alert raised. *)
Lemma memory_alert_at_400 :
  memoryUsedMB (stats (memoryTick (Some Scenario.heap_400_2) (initial 0))) = 400 /\
  In HIGH_MEMORY (alerts (stats (memoryTick (Some Scenario.heap_400_2) (initial 0)))) /\
  ~ (In HIGH_MEMORY (alerts (stats (memoryTick (Some Scenario.heap_400_2) (initial 0))))
     <-> memoryUsedMB (stats (memoryTick (Some Scenario.heap_400_2) (initial 0))) > 400).
Proof.
  assert (Hmb : memoryUsedMB (stats (memoryTick (Some Scenario.heap_400_2) (initial 0)))
                = 400) by (vm_compute; reflexivity).
  assert (Hal : alerts (stats (memoryTick (Some Scenario.heap_400_2) (initial 0)))
                = [HIGH_MEMORY]) by (vm_compute; reflexivity).
  rewrite Hmb, Hal. split; [reflexivity|]. split; [left; reflexivity|].
  intros [Hto _]. specialize (Hto (or_introl eq_refl)). lia.
Qed.

(** C6, amended: each write sets its own field and decides its own alert
    from the value it has just measured: low fps iff [fps < 30], high
    memory iff the unrounded [used] exceeds 400, high latency iff
    [latencyMs > 200]; for fps readings 29, 31, 25 the low-fps alert is
    present, absent, present. *)
Theorem alerts_follow_own_reading (prev : PerformanceStats) :
  (forall f, fps (fps_updater f prev) = f /\
             (In LOW_FPS (alerts (fps_updater f prev)) <-> f < 30)) /\
  (forall used total,
      memoryUsedMB (memory_updater used total prev) = Math_round used /\
      (In HIGH_MEMORY (alerts (memory_updater used total prev)) <-> (400 < used)%Q)) /\
  (forall latency,
      latencyMs (latency_updater latency prev) = latency /\
      (In HIGH_LATENCY (alerts (latency_updater latency prev)) <-> latency > 200)) /\
  In LOW_FPS (alerts (fps_updater 29 prev)) /\
  ~ In LOW_FPS (alerts (fps_updater 31 (fps_updater 29 prev))) /\
  In LOW_FPS (alerts (fps_updater 25 (fps_updater 31 (fps_updater 29 prev)))).
Proof.
  split; [|split; [|split]].
  - intros f. split; [reflexivity|]. simpl.
    destruct (Z.ltb_spec f 30) as [Hlt|Hge]; simpl.
    + split; [intros _; exact Hlt | intros _; left; reflexivity].
    + split; [intros [] | lia].
  - intros used total. split; [reflexivity|]. simpl.
    rewrite (own_alert_iff "Memory" HIGH_MEMORY) by (vm_compute; reflexivity).
    apply Qgtb_spec.
  - intros latency. split; [reflexivity|]. simpl.
    rewrite (own_alert_iff "Latency" HIGH_LATENCY) by (vm_compute; reflexivity).
    rewrite Z.gtb_gt. reflexivity.
  - simpl. split; [left; reflexivity|]. split; [intros []|left; reflexivity].
Qed.

End MonitorFacts.

(** * Frames that are not JSON *)

Module MalformedFacts.
Import Host.

(** C8: the monitor's listener catches the parse error, logs the frame
    and leaves its readings alone, but the Dashboard's and useWebSocket's
    [onmessage] let the SyntaxError escape the handler.  The frame is
    dropped and the next one is handled as usual. *)
Theorem parse_error_escapes_onmessage
    (st : Dashboard.State) (data : list JsValue) (m : PerformanceMonitor.Monitor)
    (now : Z) (rnd : N) :
  Dashboard.onmessage Scenario.garbage now rnd st = Uncaught "SyntaxError" /\
  UseWebSocket.onmessage Scenario.garbage data = Uncaught "SyntaxError" /\
  PerformanceMonitor.stats (PerformanceMonitor.onMessage Scenario.garbage now m)
    = PerformanceMonitor.stats m /\
  PerformanceMonitor.console (PerformanceMonitor.onMessage Scenario.garbage now m)
    = PerformanceMonitor.console m ++ ["Invalid message: {oops"%string] /\
  Dashboard.deliver st {| Dashboard.a_event := Scenario.garbage;
                          Dashboard.a_now := now; Dashboard.a_rnd := rnd |} = st.
Proof. repeat split. Qed.

End MalformedFacts.

(** * Further properties of the Dashboard's ingestion *)

Module IngestFacts.
Import Host Dashboard Ingest.

Lemma run_snoc arrivals a : run (arrivals ++ [a]) = deliver (run arrivals) a.
Proof. unfold run, run_from. apply foldl_snoc. Qed.

Lemma points_snoc arrivals a :
  points (arrivals ++ [a]) = points arrivals ++ option_list (point_of a).
Proof.
  unfold points. rewrite omap_app. simpl. destruct (point_of a); reflexivity.
Qed.

(** Slicing to [n] what was sliced to [n + 1] and appending is slicing the
    appended list to [n + 1]. *)
Lemma slice_neg_snoc {A} (n : nat) (l : list A) (x : A) :
  slice_neg n (slice_neg (S n) l) ++ [x] = slice_neg (S n) (l ++ [x]).
Proof.
  unfold slice_neg. rewrite length_drop, drop_drop, length_app. simpl.
  replace (length l - S n + (length l - (length l - S n) - n))%nat
    with (length l - n)%nat by lia.
  replace (length l + 1 - S n)%nat with (length l - n)%nat by lia.
  rewrite drop_app_le by lia. reflexivity.
Qed.

Lemma slice_neg_elem_of {A} (n : nat) (l : list A) (x : A) :
  x ∈ slice_neg n l -> x ∈ l.
Proof.
  unfold slice_neg. intros Hin.
  rewrite <- (take_drop (length l - n) l). apply elem_of_app. right. exact Hin.
Qed.

(** A point whose id none of the earlier points has passes the tail check. *)
Lemma setData_updater_fresh e (ps : list DataPoint) :
  id e ∉ (id <$> ps) ->
  setData_updater e (slice_neg (S MAX_POINTS) ps) = slice_neg (S MAX_POINTS) (ps ++ [e]).
Proof.
  intros Hfresh. unfold setData_updater.
  rewrite DashboardFacts.last_id_snoc.
  rewrite (bool_decide_eq_false_2 (last_id (slice_neg (S MAX_POINTS) ps) = Some (id e))).
  - rewrite andb_false_r. apply slice_neg_snoc.
  - unfold last_id. intros Hlast. apply Hfresh.
    destruct (last (slice_neg (S MAX_POINTS) ps)) as [d|] eqn:Hd; [|discriminate].
    simpl in Hlast. injection Hlast as <-.
    apply list_elem_of_fmap. exists d. split; [reflexivity|].
    apply (slice_neg_elem_of (S MAX_POINTS)), last_Some_elem_of, Hd.
Qed.

(** Replacing the site found for one id by a site of the same id does not
    move what [list_find] returns for any id. *)
Lemma list_find_insert_hit (k : option string) (prev : list Site) index site site' :
  list_find (fun s => s_siteId s = k) prev = Some (index, site) ->
  s_siteId site' = k ->
  list_find (fun s => s_siteId s = k) (<[index := site']> prev) = Some (index, site').
Proof.
  intros Hfind Hid. apply list_find_Some in Hfind as (Hl & _ & Hbefore).
  apply list_find_Some. split; [|split].
  - apply list_lookup_insert_eq. eapply lookup_lt_Some, Hl.
  - exact Hid.
  - intros j y Hj Hlt. rewrite list_lookup_insert_ne in Hj by lia.
    eapply Hbefore; eassumption.
Qed.

Lemma list_find_insert_miss (k k' : option string) (prev : list Site) index site site' :
  prev !! index = Some site -> s_siteId site = k' -> s_siteId site' = k' -> k' <> k ->
  list_find (fun s => s_siteId s = k) (<[index := site']> prev)
    = list_find (fun s => s_siteId s = k) prev.
Proof.
  intros Hl Hsite Hsite' Hne.
  destruct (list_find (fun s => s_siteId s = k) prev) as [[j z]|] eqn:Hfind.
  - apply list_find_Some in Hfind as (Hj & Hz & Hbefore).
    assert (Hji : j <> index).
    { intros ->. rewrite Hl in Hj. injection Hj as <-. congruence. }
    apply list_find_Some. split; [|split].
    + rewrite list_lookup_insert_ne by congruence. exact Hj.
    + exact Hz.
    + intros j' y Hj' Hlt. destruct (decide (j' = index)) as [->|Hother].
      * rewrite list_lookup_insert_eq in Hj' by (eapply lookup_lt_Some, Hl).
        injection Hj' as <-. congruence.
      * rewrite list_lookup_insert_ne in Hj' by congruence.
        eapply Hbefore; eassumption.
  - apply list_find_None. apply list_find_None in Hfind.
    apply Forall_insert; [exact Hfind|]. congruence.
Qed.

(** The series of site [k] after the [setSites] update: the series of the
    point's own site changes as the global list would, no other does. *)
Lemma window_setSites_updater e prev k d d' :
  window k {| data := d'; sites := setSites_updater e prev |}
  = if decide (siteId e = k)
    then setData_updater e (window k {| data := d; sites := prev |})
    else window k {| data := d; sites := prev |}.
Proof.
  unfold window, setSites_updater, setData_updater. simpl.
  destruct (list_find (fun s => s_siteId s = siteId e) prev) as [[index site]|] eqn:Hfind.
  - simpl. pose proof Hfind as Hf. apply list_find_Some in Hf as (Hl & Hp & _).
    destruct (decide (siteId e = k)) as [<-|Hne].
    + rewrite Hfind. destruct (_ && _); [rewrite Hfind; reflexivity|].
      erewrite list_find_insert_hit; [reflexivity | exact Hfind | exact Hp].
    + destruct (_ && _); [reflexivity|].
      erewrite (list_find_insert_miss k (siteId e)); [reflexivity | exact Hl | exact Hp | exact Hp | exact Hne].
  - destruct (decide (siteId e = k)) as [<-|Hne].
    + rewrite Hfind, list_find_app_r by exact Hfind. simpl.
      rewrite decide_True by reflexivity. reflexivity.
    + destruct (list_find (fun s => s_siteId s = k) prev) as [[j z]|] eqn:Hk.
      * erewrite list_find_app_l by exact Hk. reflexivity.
      * rewrite list_find_app_r by exact Hk. simpl.
        rewrite decide_False by exact Hne. reflexivity.
Qed.

Lemma window_deliver st a k :
  window k (deliver st a)
  = match point_of a with
    | Some e => if decide (siteId e = k) then setData_updater e (window k st)
                else window k st
    | None => window k st
    end.
Proof.
  unfold deliver, onmessage, point_of. destruct (e_json (a_event a)) as [|v]; [reflexivity|].
  destruct st as [d sts]. simpl. apply window_setSites_updater.
Qed.

Lemma data_deliver st a :
  data (deliver st a)
  = match point_of a with
    | Some e => setData_updater e (data st)
    | None => data st
    end.
Proof.
  unfold deliver, onmessage, point_of. destruct (e_json (a_event a)); reflexivity.
Qed.

Lemma last_id_setData_updater e w : last_id (setData_updater e w) = Some (id e).
Proof.
  unfold setData_updater.
  destruct (bool_decide_reflect (length w = length (slice_neg MAX_POINTS w ++ [e])));
    simpl; [|apply DashboardFacts.last_id_snoc].
  destruct (bool_decide_reflect
              (last_id w = last_id (slice_neg MAX_POINTS w ++ [e]))) as [Heq|_];
    [|apply DashboardFacts.last_id_snoc].
  rewrite Heq. apply DashboardFacts.last_id_snoc.
Qed.

(** The site buttons after the [setSites] update: the old ones, then a new
    one if the point's site id was not there. *)
Lemma keys_setSites_updater e prev :
  key <$> setSites_updater e prev
  = (key <$> prev)
    ++ (if decide (siteId e ∈ (s_siteId <$> prev)) then [] else [(siteId e, siteName e)]).
Proof.
  unfold setSites_updater.
  destruct (list_find (fun s => s_siteId s = siteId e) prev) as [[index site]|] eqn:Hfind.
  - apply list_find_Some in Hfind as (Hl & Hp & _).
    rewrite decide_True, app_nil_r.
    + destruct (_ && _); [reflexivity|].
      rewrite list_fmap_insert. apply list_insert_id.
      rewrite list_lookup_fmap, Hl. reflexivity.
    + apply list_elem_of_fmap. exists site. split; [symmetry; exact Hp|].
      eapply list_elem_of_lookup_2, Hl.
  - apply list_find_None in Hfind. rewrite decide_False.
    + rewrite fmap_app. reflexivity.
    + intros Hin. apply list_elem_of_fmap in Hin as (s & Hs & Hin).
      rewrite Forall_forall in Hfind. apply (Hfind s Hin). symmetry. exact Hs.
Qed.

Lemma ids_setSites_updater e prev :
  s_siteId <$> setSites_updater e prev
  = (s_siteId <$> prev)
    ++ (if decide (siteId e ∈ (s_siteId <$> prev)) then [] else [siteId e]).
Proof.
  assert (Hfst : forall l : list Site, s_siteId <$> l = (key <$> l).*1).
  { intros l. rewrite <- list_fmap_compose. reflexivity. }
  rewrite (Hfst (setSites_updater e prev)), keys_setSites_updater, fmap_app, <- Hfst.
  destruct (decide _); reflexivity.
Qed.

Lemma sites_deliver st a :
  sites (deliver st a)
  = match point_of a with
    | Some e => setSites_updater e (sites st)
    | None => sites st
    end.
Proof.
  unfold deliver, onmessage, point_of. destruct (e_json (a_event a)); reflexivity.
Qed.

Lemma keys_run_from more : forall st,
  (key <$> sites st) `prefix_of` (key <$> sites (run_from st more)).
Proof.
  induction more as [|a rest IH]; intros st; [reflexivity|].
  unfold run_from in *. simpl. etransitivity; [|apply IH].
  rewrite sites_deliver. destruct (point_of a) as [e|]; [|reflexivity].
  rewrite keys_setSites_updater. apply prefix_app_r. reflexivity.
Qed.

Lemma setSites_updater_own e prev :
  Forall own_points prev -> Forall own_points (setSites_updater e prev).
Proof.
  intros Hprev. unfold setSites_updater.
  destruct (list_find (fun s => s_siteId s = siteId e) prev) as [[index site]|] eqn:Hfind.
  - destruct (_ && _); [exact Hprev|].
    apply list_find_Some in Hfind as (Hl & Hp & _).
    apply Forall_insert; [exact Hprev|]. split; simpl.
    + intros Hnil. apply app_eq_nil in Hnil as [_ Hnil]. discriminate.
    + apply Forall_app. split.
      * apply Forall_drop. rewrite Forall_lookup in Hprev.
        exact (proj2 (Hprev index site Hl)).
      * constructor; [symmetry; exact Hp | constructor].
  - apply Forall_app. split; [exact Hprev|].
    constructor; [|constructor]. split; simpl; [discriminate|].
    constructor; [reflexivity | constructor].
Qed.

(** X1: when no two stored points share an id, the global list is exactly
    the last 201 points built from the frames that parsed, in arrival order. *)
Theorem data_is_last_201 (arrivals : list Arrival) :
  NoDup (id <$> points arrivals) ->
  data (run arrivals) = slice_neg 201 (points arrivals).
Proof.
  induction arrivals as [|a arrivals IH] using rev_ind; intros Hids; [reflexivity|].
  rewrite run_snoc, data_deliver, points_snoc in *.
  destruct (point_of a) as [e|]; simpl in *; [|rewrite app_nil_r in *; auto].
  rewrite fmap_app in Hids. apply NoDup_app in Hids as (Hold & Hfresh & _).
  rewrite (IH Hold). apply (setData_updater_fresh e).
  intros Hin. apply (Hfresh _ Hin). simpl. apply list_elem_of_singleton. reflexivity.
Qed.

Lemma data_is_last_201_witness :
  NoDup (id <$> points MoreScenario.mixed) /\
  timestamps (data (run MoreScenario.mixed)) = [1; 3; 4; 5].
Proof.
  assert (Hids : NoDup (id <$> points MoreScenario.mixed)).
  { apply (bool_decide_unpack _). vm_compute. reflexivity. }
  split; [exact Hids|].
  rewrite (data_is_last_201 MoreScenario.mixed Hids). reflexivity.
Defined.

(** X2: under the same condition the series of every site is exactly the
    last 201 points of that site, in arrival order; a site never seen has
    the empty series. *)
Theorem window_is_last_201 (arrivals : list Arrival) (k : option string) :
  NoDup (id <$> points arrivals) ->
  window k (run arrivals) = slice_neg 201 (of_site k (points arrivals)).
Proof.
  induction arrivals as [|a arrivals IH] using rev_ind; intros Hids; [reflexivity|].
  rewrite run_snoc, window_deliver, points_snoc in *.
  destruct (point_of a) as [e|]; simpl in *; [|rewrite app_nil_r in *; auto].
  rewrite fmap_app in Hids. apply NoDup_app in Hids as (Hold & Hfresh & _).
  unfold of_site in *. rewrite filter_app, (IH Hold).
  destruct (decide (siteId e = k)) as [Hk|Hk].
  - rewrite (filter_cons_True _ e []) by exact Hk. simpl.
    apply (setData_updater_fresh e).
    intros Hin. apply list_elem_of_fmap in Hin as (d & Hd & Hin).
    apply list_elem_of_filter in Hin as [_ Hin].
    apply (Hfresh (id e)).
    + apply list_elem_of_fmap. exists d. split; assumption.
    + simpl. apply list_elem_of_singleton. reflexivity.
  - rewrite (filter_cons_False _ e []) by exact Hk. simpl.
    rewrite app_nil_r. reflexivity.
Qed.

Lemma window_is_last_201_witness :
  NoDup (id <$> points MoreScenario.mixed) /\
  timestamps (window (Some "a"%string) (run MoreScenario.mixed)) = [1; 5] /\
  timestamps (window None (run MoreScenario.mixed)) = [4].
Proof.
  assert (Hids : NoDup (id <$> points MoreScenario.mixed)).
  { apply (bool_decide_unpack _). vm_compute. reflexivity. }
  split; [exact Hids|]. split.
  - rewrite (window_is_last_201 MoreScenario.mixed (Some "a"%string) Hids). reflexivity.
  - rewrite (window_is_last_201 MoreScenario.mixed None Hids). reflexivity.
Defined.

(** X3: a frame that parses always ends up identified with the tail: after
    it is handled, the last point of the global list and the last point of
    its site's series both carry the frame's random draw as id. *)
Theorem newest_point_is_tail (st : State) (a : Arrival) (e : DataPoint) :
  point_of a = Some e ->
  last_id (data (deliver st a)) = Some (a_rnd a) /\
  last_id (window (siteId e) (deliver st a)) = Some (a_rnd a).
Proof.
  intros Hpoint.
  assert (Hid : id e = a_rnd a).
  { unfold point_of in Hpoint. destruct (e_json (a_event a)); [discriminate|].
    injection Hpoint as <-. reflexivity. }
  rewrite data_deliver, window_deliver, Hpoint, decide_True by reflexivity.
  rewrite !last_id_setData_updater, Hid. split; reflexivity.
Qed.

Lemma newest_point_is_tail_witness :
  point_of (Scenario.nth_arrival "a" 7) = Some (Scenario.point "a" 7) /\
  last_id (data (deliver (run MoreScenario.mixed) (Scenario.nth_arrival "a" 7))) = Some 7%N.
Proof.
  assert (Hp : point_of (Scenario.nth_arrival "a" 7) = Some (Scenario.point "a" 7))
    by reflexivity.
  split; [exact Hp|].
  exact (proj1 (newest_point_is_tail (run MoreScenario.mixed) _ _ Hp)).
Defined.

(** X4: no two sites of the list carry the same site id. *)
Theorem site_ids_distinct (arrivals : list Arrival) :
  NoDup (s_siteId <$> sites (run arrivals)).
Proof.
  unfold run.
  apply (DashboardFacts.run_from_preserves (fun st => NoDup (s_siteId <$> sites st)));
    [|constructor].
  intros st a Hst. rewrite sites_deliver. destruct (point_of a) as [e|]; [|exact Hst].
  rewrite ids_setSites_updater. destruct (decide _) as [Hin|Hout].
  - rewrite app_nil_r. exact Hst.
  - apply NoDup_app. split; [exact Hst|]. split.
    + intros x Hx Hx'. apply list_elem_of_singleton in Hx'. congruence.
    + apply NoDup_singleton.
Qed.

(** X5: the list has a site for an id exactly when a frame carrying that id
    has parsed; a frame without [siteId], such as a pong, makes a site
    whose id is [undefined]. *)
Theorem site_exists_iff_seen (arrivals : list Arrival) (k : option string) :
  k ∈ (s_siteId <$> sites (run arrivals)) <-> k ∈ (siteId <$> points arrivals).
Proof.
  induction arrivals as [|a arrivals IH] using rev_ind; [reflexivity|].
  rewrite run_snoc, sites_deliver, points_snoc.
  destruct (point_of a) as [e|]; simpl; [|rewrite app_nil_r; exact IH].
  rewrite ids_setSites_updater, fmap_app, !elem_of_app, IH. simpl.
  destruct (decide _) as [Hin|Hout].
  - rewrite list_elem_of_singleton. split; [intros [H|H]; [left; exact H|inversion H]|].
    intros [H| ->]; [left; exact H|]. left. apply IH. exact Hin.
  - reflexivity.
Qed.

(** X6: sites are never removed, reordered or renamed: the (id, name)
    pairs of the list after more frames extend those before them. *)
Theorem sites_only_grow (arrivals more : list Arrival) :
  (key <$> sites (run arrivals)) `prefix_of` (key <$> sites (run (arrivals ++ more))).
Proof.
  unfold run, run_from. rewrite foldl_app. apply keys_run_from.
Qed.

(** X7: every series in the list is non-empty and holds only points whose
    site id is that of its site. *)
Theorem series_hold_own_points (arrivals : list Arrival) (site : Site) :
  site ∈ sites (run arrivals) ->
  s_data site <> [] /\ (forall d, d ∈ s_data site -> siteId d = s_siteId site).
Proof.
  intros Hin.
  assert (Hall : Forall own_points (sites (run arrivals))).
  { unfold run.
    apply (DashboardFacts.run_from_preserves (fun st => Forall own_points (sites st)));
      [|constructor].
    intros st a Hst. rewrite sites_deliver. destruct (point_of a); [|exact Hst].
    apply setSites_updater_own, Hst. }
  rewrite Forall_forall in Hall. destruct (Hall site Hin) as [Hne Hown].
  split; [exact Hne|]. rewrite Forall_forall in Hown. exact Hown.
Qed.

Lemma series_hold_own_points_witness :
  Scenario.full_site ∈ sites (run (Scenario.burst "a" 0 201)) /\
  s_data Scenario.full_site <> [].
Proof.
  assert (Hin : Scenario.full_site ∈ sites (run (Scenario.burst "a" 0 201))).
  { apply (list_elem_of_lookup_2 _ 0%nat). vm_compute. reflexivity. }
  split; [exact Hin|].
  exact (proj1 (series_hold_own_points (Scenario.burst "a" 0 201) Scenario.full_site Hin)).
Defined.

End IngestFacts.

(** * Further properties of useWebSocket *)

Module UseWebSocketFacts.
Import Host UseWebSocketLoop.

Lemma slice_neg_length_min {A} (n : nat) (l : list A) :
  length (slice_neg n l) = Nat.min n (length l).
Proof. unfold slice_neg. rewrite length_drop. lia. Qed.

(** X8: the hook's list is exactly the last 1000 values of the frames that
    parsed, in arrival order; it never holds more than 1000. *)
Theorem data_is_last_1000 (events : list MessageEvent) :
  run events = slice_neg 1000 (values events) /\
  length (run events) = Nat.min 1000 (length (values events)).
Proof.
  assert (Hrun : run events = slice_neg 1000 (values events)).
  { induction events as [|event events IH] using rev_ind; [reflexivity|].
    unfold run, values in *. rewrite foldl_snoc, omap_app, IH. simpl.
    unfold deliver, UseWebSocket.onmessage, value_of.
    destruct (e_json event) as [|v]; simpl; [rewrite app_nil_r; reflexivity|].
    apply (IngestFacts.slice_neg_snoc 999). }
  split; [exact Hrun|]. rewrite Hrun. apply slice_neg_length_min.
Qed.

End UseWebSocketFacts.

(** * Further properties of the performance monitor *)

Module MonitorMore.
Import Host PerformanceMonitor MonitorLoop.

Lemma known_alert_cases a :
  In a known_alerts -> a = LOW_FPS \/ a = HIGH_MEMORY \/ a = HIGH_LATENCY.
Proof. simpl. intuition. Qed.

Lemma tidy_fps_updater f prev : tidy (alerts (fps_updater f prev)).
Proof.
  simpl. destruct (f <? 30); split.
  - repeat constructor. intros [].
  - intros a [<-|[]]. left. reflexivity.
  - constructor.
  - intros a [].
Qed.

(** A writer that filters its own category out of a tidy list and then
    adds its alert or not leaves a tidy list. *)
Lemma tidy_own_category needle own (raise : bool) prev :
  tidy prev -> includes needle own = true -> In own known_alerts ->
  tidy (List.filter (fun a => negb (includes needle a)) prev
        ++ (if raise then [own] else [])).
Proof.
  intros [Hnd Hknown] Hown Hin. split.
  - apply NoDup_ListNoDup, NoDup_app.
    split; [apply NoDup_ListNoDup, List.NoDup_filter, Hnd|]. split.
    + intros x Hx Hx'. apply list_elem_of_In, filter_In in Hx as [_ Hx].
      destruct raise; [|inversion Hx'].
      apply list_elem_of_singleton in Hx' as ->. rewrite Hown in Hx. discriminate.
    + destruct raise; [apply NoDup_singleton | constructor].
  - intros a Ha. apply in_app_iff in Ha as [Ha|Ha].
    + apply filter_In in Ha as [Ha _]. apply Hknown, Ha.
    + destruct raise; [|destruct Ha]. destruct Ha as [<-|[]]. exact Hin.
Qed.

Lemma tidy_step m ev : tidy (alerts (stats m)) -> tidy (alerts (stats (step m ev))).
Proof.
  intros Hm. destruct ev as [now|mem|rs now|e now]; simpl.
  - unfold loop. destruct (Qle_bool _ _); [|exact Hm]. apply tidy_fps_updater.
  - destruct mem as [info|]; [|exact Hm].
    apply (tidy_own_category "Memory" HIGH_MEMORY); [exact Hm | reflexivity |].
    right. left. reflexivity.
  - destruct rs; exact Hm.
  - unfold onMessage. destruct (e_json e) as [|[|o]]; try exact Hm.
    destruct (latencyStart m) as [start|]; [|exact Hm].
    destruct (_ && _); [|exact Hm].
    apply (tidy_own_category "Latency" HIGH_LATENCY); [exact Hm | reflexivity |].
    right. right. left. reflexivity.
Qed.

(** X9: whatever callbacks run in whatever order, the alert list never
    holds an alert twice, holds only the three alerts of the hook, and so
    never more than three entries. *)
Theorem alerts_stay_tidy (t0 : Q) (evs : list Event) :
  List.NoDup (alerts (stats (run t0 evs))) /\
  (forall a, In a (alerts (stats (run t0 evs))) ->
             a = LOW_FPS \/ a = HIGH_MEMORY \/ a = HIGH_LATENCY) /\
  (length (alerts (stats (run t0 evs))) <= 3)%nat.
Proof.
  assert (Htidy : tidy (alerts (stats (run t0 evs)))).
  { unfold run. induction evs as [|ev evs IH] using rev_ind.
    - split; [constructor | intros a []].
    - rewrite foldl_snoc. apply tidy_step, IH. }
  destruct Htidy as [Hnd Hknown]. split; [exact Hnd|]. split.
  - intros a Ha. apply known_alert_cases, Hknown, Ha.
  - change 3%nat with (length known_alerts).
    apply List.NoDup_incl_length; [exact Hnd | exact Hknown].
Qed.

(** X10: after a memory sample the displayed [memoryUsedMB] is the used
    heap in MB rounded to the nearest integer, within half a MB of it; a
    display above 400 always comes with the memory alert, and the alert
    never comes with a display below 400. *)
Theorem memory_display_and_alert (info : MemoryInfo) (m : Monitor) :
  let used := (inject_Z (usedJSHeapSize info) / inject_Z 1048576)%Q in
  let s := stats (memoryTick (Some info) m) in
  (inject_Z (memoryUsedMB s) <= used + (1 # 2) /\
   used - (1 # 2) < inject_Z (memoryUsedMB s))%Q /\
  (memoryUsedMB s > 400 -> In HIGH_MEMORY (alerts s)) /\
  (In HIGH_MEMORY (alerts s) -> memoryUsedMB s >= 400).
Proof.
  intros used s. subst s. simpl. fold used.
  rewrite (MonitorFacts.own_alert_iff "Memory" HIGH_MEMORY) by reflexivity.
  rewrite MonitorFacts.Qgtb_spec. unfold Math_round.
  pose proof (Qfloor_le (used + (1 # 2))) as Hle.
  pose proof (Qlt_floor (used + (1 # 2))) as Hlt.
  rewrite inject_Z_plus in Hlt. change (inject_Z 1) with 1%Q in Hlt.
  clearbody used.
  split; [split; lra|]. split.
  - intros Hgt.
    assert (H401 : (inject_Z 401 <= inject_Z (Qfloor (used + (1 # 2))))%Q)
      by (rewrite <- Zle_Qle; lia).
    change (inject_Z 401) with 401%Q in H401. lra.
  - intros Hused.
    assert (H400 : (inject_Z 400 < inject_Z (Qfloor (used + (1 # 2)) + 1))%Q).
    { rewrite inject_Z_plus. change (inject_Z 1) with 1%Q.
      change (inject_Z 400) with 400%Q. lra. }
    rewrite <- Zlt_Qlt in H400. lia.
Qed.

Lemma other_alert_iff needle own (raise : bool) prev a :
  includes needle own = true -> includes needle a = false ->
  In a (List.filter (fun a => negb (includes needle a)) prev
        ++ (if raise then [own] else [])) <-> In a prev.
Proof.
  intros Hown Ha. rewrite in_app_iff, filter_In, Ha. simpl. split.
  - intros [[Hin _]|Hin]; [exact Hin|].
    destruct raise; [|destruct Hin]. destruct Hin as [<-|[]]. congruence.
  - intros Hin. left. split; [exact Hin | reflexivity].
Qed.

(** X11: a memory sample changes only the two memory fields and the memory
    alert: fps, latency, the pending ping and every alert whose text does
    not contain "Memory" are as before. *)
Theorem memory_write_is_scoped (info : MemoryInfo) (m : Monitor) :
  fps (stats (memoryTick (Some info) m)) = fps (stats m) /\
  latencyMs (stats (memoryTick (Some info) m)) = latencyMs (stats m) /\
  latencyStart (memoryTick (Some info) m) = latencyStart m /\
  frameCount (memoryTick (Some info) m) = frameCount m /\
  (forall a, includes "Memory" a = false ->
     (In a (alerts (stats (memoryTick (Some info) m))) <-> In a (alerts (stats m)))).
Proof.
  repeat split; try reflexivity; simpl.
  - apply (other_alert_iff "Memory" HIGH_MEMORY); [reflexivity | assumption].
  - apply (other_alert_iff "Memory" HIGH_MEMORY); [reflexivity | assumption].
Qed.

(** X12: a pong that answers a pending ping stamped [start <> 0] stores
    [now - start], clears the pending stamp, raises the latency alert
    exactly when the round trip exceeds 200 ms, and leaves fps, the memory
    fields and every alert whose text does not contain "Latency" alone. *)
Theorem pong_write_is_scoped (e : MessageEvent) (now start : Z) (m : Monitor) :
  is_pong e -> latencyStart m = Some start -> start <> 0 ->
  latencyMs (stats (onMessage e now m)) = now - start /\
  latencyStart (onMessage e now m) = None /\
  (In HIGH_LATENCY (alerts (stats (onMessage e now m))) <-> now - start > 200) /\
  fps (stats (onMessage e now m)) = fps (stats m) /\
  memoryUsedMB (stats (onMessage e now m)) = memoryUsedMB (stats m) /\
  memoryTotalMB (stats (onMessage e now m)) = memoryTotalMB (stats m) /\
  (forall a, includes "Latency" a = false ->
     (In a (alerts (stats (onMessage e now m))) <-> In a (alerts (stats m)))).
Proof.
  intros (o & Hjson & Htype) Hpending Hnz. unfold onMessage.
  rewrite Hjson, Hpending, Htype.
  rewrite bool_decide_eq_true_2 by reflexivity.
  destruct (Z.eqb_spec start 0) as [->|_]; [contradiction|]. simpl.
  repeat split; try reflexivity.
  - intros Hin.
    apply (MonitorFacts.own_alert_iff "Latency" HIGH_LATENCY) in Hin; [|reflexivity].
    apply Z.gtb_gt. exact Hin.
  - intros Hgt.
    apply (MonitorFacts.own_alert_iff "Latency" HIGH_LATENCY); [reflexivity|].
    apply Z.gtb_gt. exact Hgt.
  - apply (other_alert_iff "Latency" HIGH_LATENCY); [reflexivity | assumption].
  - apply (other_alert_iff "Latency" HIGH_LATENCY); [reflexivity | assumption].
Qed.

Lemma pong_write_is_scoped_witness :
  is_pong Scenario.pong /\
  latencyStart (pingTick OPEN 1000 (initial 0)) = Some 1000 /\
  1000 <> 0 /\
  latencyMs (stats (onMessage Scenario.pong 1250 (pingTick OPEN 1000 (initial 0)))) = 250.
Proof.
  assert (Hp : is_pong Scenario.pong) by (eexists; split; reflexivity).
  assert (Hnz : 1000 <> 0) by lia.
  split; [exact Hp|]. split; [reflexivity|]. split; [exact Hnz|].
  exact (proj1 (pong_write_is_scoped Scenario.pong 1250 1000
                  (pingTick OPEN 1000 (initial 0)) Hp eq_refl Hnz)).
Defined.

(** X13: a pong is consumed once: whatever the monitor's state, a second
    pong right after a first changes nothing more. *)
Theorem second_pong_is_ignored (e1 e2 : MessageEvent) (t1 t2 : Z) (m : Monitor) :
  is_pong e1 -> is_pong e2 ->
  onMessage e2 t2 (onMessage e1 t1 m) = onMessage e1 t1 m.
Proof.
  intros (o1 & Hj1 & Ht1) (o2 & Hj2 & Ht2). unfold onMessage.
  rewrite Hj1, Hj2, Ht1, Ht2.
  rewrite !(bool_decide_eq_true_2 (Some "pong"%string = Some "pong"%string)) by reflexivity.
  destruct (latencyStart m) as [start|] eqn:Hpending; [|rewrite Hpending; reflexivity].
  destruct (Z.eqb_spec start 0) as [->|Hnz]; simpl.
  - rewrite Hpending. reflexivity.
  - reflexivity.
Qed.

Lemma second_pong_is_ignored_witness :
  is_pong Scenario.pong /\
  onMessage Scenario.pong 1300 Scenario.ping_at_1000_pong_at_1250
    = Scenario.ping_at_1000_pong_at_1250.
Proof.
  assert (Hp : is_pong Scenario.pong) by (eexists; split; reflexivity).
  split; [exact Hp|].
  exact (second_pong_is_ignored Scenario.pong Scenario.pong 1250 1300
           (pingTick OPEN 1000 (initial 0)) Hp Hp).
Defined.

(** X14: a ping sent while another is outstanding replaces its stamp: the
    next pong measures from the later ping, and both pings went out. *)
Theorem latest_ping_wins (e : MessageEvent) (t1 t2 t3 : Z) (m : Monitor) :
  is_pong e -> t2 <> 0 ->
  latencyMs (stats (onMessage e t3 (pingTick OPEN t2 (pingTick OPEN t1 m)))) = t3 - t2 /\
  sent (onMessage e t3 (pingTick OPEN t2 (pingTick OPEN t1 m)))
    = sent m ++ ["ping"%string; "ping"%string].
Proof.
  intros (o & Hjson & Htype) Hnz. unfold onMessage. rewrite Hjson, Htype. simpl.
  destruct (Z.eqb_spec t2 0) as [->|_]; [contradiction|]. simpl.
  rewrite <- app_assoc. split; reflexivity.
Qed.

Lemma latest_ping_wins_witness :
  is_pong Scenario.pong /\ 4000 <> 0 /\
  latencyMs (stats (onMessage Scenario.pong 4100
                      (pingTick OPEN 4000 (pingTick OPEN 1000 (initial 0))))) = 100.
Proof.
  assert (Hp : is_pong Scenario.pong) by (eexists; split; reflexivity).
  assert (Hnz : 4000 <> 0) by lia.
  split; [exact Hp|]. split; [exact Hnz|].
  exact (proj1 (latest_ping_wins Scenario.pong 1000 4000 4100 (initial 0) Hp Hnz)).
Defined.





Lemma sent_step m ev :
  sent (step m ev) = sent m ++ (if is_open_ping ev then ["ping"%string] else []).
Proof.
  destruct ev as [now|mem|rs now|e now]; simpl.
  - unfold loop. destruct (Qle_bool _ _); simpl; rewrite app_nil_r; reflexivity.
  - destruct mem; simpl; rewrite app_nil_r; reflexivity.
  - destruct rs; simpl; rewrite ?app_nil_r; reflexivity.
  - unfold onMessage. rewrite app_nil_r.
    destruct (e_json e) as [|[|o]]; try reflexivity.
    destruct (latencyStart m); [|reflexivity].
    destruct (_ && _); reflexivity.
Qed.

Lemma console_step m ev :
  length (console (step m ev))
  = (length (console m) + (if is_invalid ev then 1 else 0))%nat.
Proof.
  destruct ev as [now|mem|rs now|e now]; simpl.
  - unfold loop. destruct (Qle_bool _ _); simpl; lia.
  - destruct mem; simpl; lia.
  - destruct rs; simpl; lia.
  - unfold onMessage.
    destruct (e_json e) as [|[|o]]; simpl; rewrite ?length_app; simpl; try lia.
    destruct (latencyStart m); [|lia].
    destruct (_ && _); simpl; lia.
Qed.

(** X16: over any trace of callbacks, the hook sends exactly one ping per
    tick of the ping interval that finds the socket OPEN, and writes
    exactly one console error per frame that does not parse or is [null]. *)
Theorem pings_and_errors_are_counted (t0 : Q) (evs : list Event) :
  length (sent (run t0 evs)) = length (List.filter is_open_ping evs) /\
  length (console (run t0 evs)) = length (List.filter is_invalid evs).
Proof.
  unfold run. induction evs as [|ev evs IH] using rev_ind; [split; reflexivity|].
  destruct IH as [IHs IHc].
  rewrite foldl_snoc, sent_step, console_step, !List.filter_app, !length_app, IHs, IHc.
  simpl. destruct (is_open_ping ev), (is_invalid ev); simpl; split; lia.
Qed.

End MonitorMore.

(** * Further properties of the reconnect logic *)

Module ConnectionMore.
Import Connection ConnectionTrace.

Lemma run_step_last evs ev : run (evs ++ [ev]) = step (run evs) ev.
Proof. unfold run. apply foldl_snoc. Qed.

Lemma sound_step st ev : sound st -> sound (step st ev).
Proof.
  unfold sound, latest_socket. intros [Href Hclosed].
  assert (Hgrow : Forall (fun s => (s < S (sockets st))%nat) (closed st)).
  { eapply Forall_impl; [exact Hclosed|]. simpl. intros s Hs. lia. }
  destruct ev as [|s now|s| |]; simpl.
  - split; [reflexivity | exact Hgrow].
  - destruct (s <? sockets st)%nat; split; assumption.
  - split; assumption.
  - destruct (timers st) as [|due rest]; [split; assumption|].
    split; [reflexivity | exact Hgrow].
  - unfold cleanup. destruct (wsRef st) as [s|] eqn:Hs; [|rewrite Hs; split; assumption].
    simpl. split; [exact Href|].
    apply Forall_app. split; [exact Hclosed|].
    constructor; [|constructor].
    destruct (sockets st); [discriminate|]. injection Href as ->. lia.
Qed.

Lemma sound_run evs : sound (run evs).
Proof.
  induction evs as [|ev evs IH] using rev_ind.
  - split; [reflexivity | constructor].
  - rewrite run_step_last. apply sound_step, IH.
Qed.

(** X17: [wsRef] always holds the socket built last: [null] before the
    first connect, and after every reconnect the new socket; earlier
    sockets are no longer reachable through it. *)
Theorem wsRef_is_latest (evs : list Event) :
  wsRef (run evs) = match sockets (run evs) with
                    | O => None
                    | S n => Some n
                    end.
Proof. exact (proj1 (sound_run evs)). Qed.

Lemma timer_fires st due rest :
  timers st = due :: rest ->
  step st TimerFires
  = connectWebSocket {| wsRef := wsRef st; sockets := sockets st;
                        closed := closed st; timers := rest |}.
Proof. intros Ht. simpl. rewrite Ht. reflexivity. Qed.

Lemma budget_step st ev :
  (sockets (step st ev) + length (timers (step st ev))
   <= sockets st + length (timers st)
      + (if is_mount ev then 1 else 0) + (if is_error ev then 1 else 0))%nat /\
  (sockets st + (if is_mount ev then 1 else 0) <= sockets (step st ev))%nat.
Proof.
  destruct ev as [|s now|s| |]; simpl; try lia.
  - destruct (s <? sockets st)%nat; simpl; rewrite ?length_app; simpl; lia.
  - destruct (timers st) as [|due rest] eqn:Ht; simpl; rewrite ?Ht; simpl; lia.
  - unfold cleanup. destruct (wsRef st); simpl; lia.
Qed.

(** X18: sockets are built only by a mount or by a timer that an error
    event scheduled: the sockets built so far plus the reconnects still
    pending never exceed the mounts plus the error events, and every mount
    has built one. *)
Theorem sockets_come_from_mounts_and_errors (evs : list Event) :
  (sockets (run evs) + length (timers (run evs)) <= mounts evs + errors evs)%nat /\
  (mounts evs <= sockets (run evs))%nat.
Proof.
  unfold mounts, errors.
  induction evs as [|ev evs IH] using rev_ind; [simpl; lia|].
  rewrite run_step_last, !List.filter_app, !length_app. simpl.
  pose proof (budget_step (run evs) ev) as [Hup Hlow].
  destruct (is_mount ev), (is_error ev); simpl in *; lia.
Qed.

(** X19: the cleanup does not cancel a pending reconnect: when a timer is
    pending at unmount, its firing afterwards builds a new socket, stores
    it in [wsRef], and that socket is not among the closed ones. *)
Theorem reconnect_survives_unmount (evs : list Event) :
  timers (run evs) <> [] ->
  sockets (run (evs ++ [Unmount; TimerFires])) = S (sockets (run evs)) /\
  wsRef (run (evs ++ [Unmount; TimerFires])) = Some (sockets (run evs)) /\
  sockets (run evs) ∉ closed (run (evs ++ [Unmount; TimerFires])).
Proof.
  intros Hpending.
  replace (evs ++ [Unmount; TimerFires]) with ((evs ++ [Unmount]) ++ [TimerFires])
    by (rewrite <- app_assoc; reflexivity).
  rewrite !run_step_last.
  pose proof (sound_step (run evs) Unmount (sound_run evs)) as [_ Hclosed].
  assert (Hsame : sockets (step (run evs) Unmount) = sockets (run evs)
                  /\ timers (step (run evs) Unmount) = timers (run evs)).
  { simpl. unfold cleanup. destruct (wsRef (run evs)); split; reflexivity. }
  destruct Hsame as [Hsock Htimers]. rewrite Hsock in Hclosed.
  set (u := step (run evs) Unmount) in *.
  destruct (timers u) as [|due rest] eqn:Ht; [congruence|].
  rewrite (timer_fires u due rest Ht). simpl. rewrite Hsock. repeat split.
  intros Hin. rewrite Forall_forall in Hclosed.
  specialize (Hclosed _ Hin). lia.
Qed.

Lemma reconnect_survives_unmount_witness :
  timers (run [Mount; ErrorEvent 0 0]) <> [] /\
  wsRef (run ([Mount; ErrorEvent 0 0] ++ [Unmount; TimerFires])) = Some 1%nat /\
  closed (run ([Mount; ErrorEvent 0 0] ++ [Unmount; TimerFires])) = [0%nat].
Proof.
  assert (Hpending : timers (run [Mount; ErrorEvent 0 0]) <> []) by discriminate.
  split; [exact Hpending|]. split; [|reflexivity].
  exact (proj1 (proj2 (reconnect_survives_unmount [Mount; ErrorEvent 0 0] Hpending))).
Defined.

End ConnectionMore.

(** * Properties of useDataProcessor *)

Module DataProcessorFacts.
Import Host DataProcessor.

Lemma idle_snoc n now s : idle (S n) now s = idle_step now (idle n now s).
Proof.
  revert s. induction n as [|n IH]; intros s; [reflexivity|].
  change (idle (S (S n)) now s) with (idle (S n) now (idle_step now s)).
  rewrite IH. reflexivity.
Qed.

(** Another callback is asked for exactly while callbacks are left. *)
Lemma more_callbacks n total :
  (n < callbacks total)%nat ->
  ((n * 100 + 100 <? total)%nat = true <-> (S n < callbacks total)%nat).
Proof.
  unfold callbacks. intros Hn.
  pose proof (Nat.div_mod_eq (total + 99) 100) as Hdiv.
  pose proof (Nat.mod_upper_bound (total + 99) 100) as Hmod.
  rewrite Nat.ltb_lt. lia.
Qed.

Lemma started_hundreds n total :
  (n < callbacks total)%nat -> (n * 100 <= total)%nat.
Proof.
  unfold callbacks. intros Hn.
  pose proof (Nat.div_mod_eq (total + 99) 100) as Hdiv.
  pose proof (Nat.mod_upper_bound (total + 99) 100) as Hmod.
  lia.
Qed.

(** On objects the map does not throw. *)
Lemma map_items_objects now (objects : list JsObject) : forall i,
  map_items now i (JObject <$> objects)
  = Some (imap (fun k it => process now (i + k) it) objects).
Proof.
  induction objects as [|it rest IH]; intros i; [reflexivity|].
  simpl. rewrite IH, Nat.add_0_r. f_equal. f_equal.
  apply imap_ext. intros k x _. simpl. f_equal. lia.
Qed.

(** It throws as soon as a [null] item is among those it maps. *)
Lemma map_items_null now (items : list JsValue) : forall i,
  JNull ∈ items -> map_items now i items = None.
Proof.
  induction items as [|v rest IH]; intros i Hin; [inversion Hin|].
  destruct v as [|it]; [reflexivity|]. simpl.
  apply elem_of_cons in Hin as [Heq|Hin]; [discriminate|].
  rewrite (IH (S i) Hin). reflexivity.
Qed.

(** A chunk continues the output built so far. *)
Lemma chunk_append now (objects : list JsObject) a :
  (a <= length objects)%nat ->
  outputs now (take a objects)
    ++ imap (fun k it => process now (a + k) it) (take 100 (drop a objects))
  = outputs now (take (a + 100) objects).
Proof.
  intros Ha. unfold outputs.
  rewrite <- (take_take_drop objects a 100), imap_app, length_take_le by exact Ha.
  reflexivity.
Qed.

Lemma chunk_of_objects now (objects : list JsObject) a :
  map_items now a (take 100 (drop a (JObject <$> objects)))
  = Some (imap (fun k it => process now (a + k) it) (take 100 (drop a objects))).
Proof. rewrite <- fmap_drop, <- fmap_take. apply map_items_objects. Qed.

(** While callbacks are left the job holds the output of the chunks done
    and the hook still shows the old result. *)
Lemma idle_progress now (objects : list JsObject) h n :
  (n < callbacks (length objects))%nat ->
  idle n now (processData (JObject <$> objects) h)
  = (Some {| j_data := JObject <$> objects;
             result := outputs now (take (n * 100) objects);
             index := (n * 100)%nat |},
     {| processedData := processedData h; processing := true |}).
Proof.
  induction n as [|n IH]; intros Hn; [reflexivity|].
  rewrite idle_snoc, IH by lia. unfold idle_step, processChunk, chunkSize.
  cbn [index j_data result].
  rewrite chunk_of_objects, length_fmap.
  rewrite (proj2 (more_callbacks n (length objects) ltac:(lia))) by exact Hn.
  rewrite chunk_append by (apply started_hundreds; lia).
  replace (S n * 100)%nat with (n * 100 + 100)%nat by lia. reflexivity.
Qed.

Lemma idle_completes now (objects : list JsObject) h :
  idle (callbacks (length objects)) now (processData (JObject <$> objects) h)
  = (None, {| processedData := outputs now objects; processing := false |}).
Proof.
  assert (Hpos : (0 < callbacks (length objects))%nat) by (unfold callbacks; lia).
  destruct (callbacks (length objects)) as [|n] eqn:Hc; [lia|].
  rewrite idle_snoc, idle_progress by lia. unfold idle_step, processChunk, chunkSize.
  cbn [index j_data result].
  rewrite chunk_of_objects, length_fmap.
  destruct (n * 100 + 100 <? length objects)%nat eqn:Hmore.
  - apply more_callbacks in Hmore; lia.
  - rewrite chunk_append by (apply started_hundreds; lia).
    apply Nat.ltb_ge in Hmore. rewrite take_ge by lia. reflexivity.
Qed.

Lemma idle_step_stuck now p data h s :
  data !! p = Some JNull ->
  stuck_before p data h s -> stuck_before p data h (idle_step now s).
Proof.
  intros Hnull. destruct s as [[j|] h']; intros [Hh Hjob]; simpl in *; subst h'.
  - destruct Hjob as [Hdata Hidx]. unfold processChunk, chunkSize. rewrite Hdata.
    destruct (decide (p < index j + 100)%nat) as [Hin|Hout].
    + rewrite map_items_null; [split; [reflexivity | exact I]|].
      apply (list_elem_of_lookup_2 _ (p - index j)%nat).
      rewrite lookup_take_lt, lookup_drop by lia.
      replace (index j + (p - index j))%nat with p by lia. exact Hnull.
    + destruct (map_items now (index j) (take 100 (drop (index j) data)));
        [|split; [reflexivity | exact I]].
      assert (Hlen : (p < length data)%nat) by (eapply lookup_lt_Some, Hnull).
      rewrite (proj2 (Nat.ltb_lt _ _)) by lia.
      split; [reflexivity|]. simpl. split; [reflexivity | lia].
  - split; [reflexivity | exact I].
Qed.

Lemma idle_stuck now p data h n s :
  data !! p = Some JNull ->
  stuck_before p data h s -> stuck_before p data h (idle n now s).
Proof.
  intros Hnull. revert s. induction n as [|n IH]; intros s Hs; [exact Hs|].
  simpl. apply IH, idle_step_stuck; assumption.
Qed.

(** X20: for an input whose items are all objects, a call of
    [processData] finishes: after one idle callback per started hundred
    of items (one for an empty input) the hook holds every input item, in
    order, each with its own time stamp and cache, and [processing] is
    off; further idle periods change nothing. *)
Theorem processData_publishes_all
    (now : nat -> Z) (objects : list JsObject) (h : Hook) (extra : nat) :
  idle (callbacks (length objects) + extra) now (processData (JObject <$> objects) h)
  = (None, {| processedData := imap (process now) objects; processing := false |}).
Proof.
  induction extra as [|extra IH].
  - rewrite Nat.add_0_r. apply idle_completes.
  - rewrite Nat.add_succ_r, idle_snoc, IH. reflexivity.
Qed.

(** X21: for an input of objects nothing is published early: while
    callbacks are left, the hook still shows its previous [processedData]
    with [processing] on, and the job has consumed exactly the first
    [100 * n] items. *)
Theorem no_partial_results
    (now : nat -> Z) (objects : list JsObject) (h : Hook) (n : nat) :
  (n < callbacks (length objects))%nat ->
  snd (idle n now (processData (JObject <$> objects) h))
    = {| processedData := processedData h; processing := true |} /\
  exists j, fst (idle n now (processData (JObject <$> objects) h)) = Some j /\
            index j = (100 * n)%nat /\
            item <$> result j = take (100 * n) objects.
Proof.
  intros Hn. rewrite idle_progress by exact Hn. cbn [fst snd].
  split; [reflexivity|].
  eexists. split; [reflexivity|]. cbn [index result].
  replace (n * 100)%nat with (100 * n)%nat by lia.
  split; [reflexivity|].
  unfold outputs. apply list_eq. intros i.
  rewrite list_lookup_fmap, list_lookup_imap.
  destruct (_ !! i); reflexivity.
Qed.

Lemma no_partial_results_witness :
  (2 < callbacks (length MoreScenario.items))%nat /\
  snd (idle 2 MoreScenario.item_clock
         (processData (JObject <$> MoreScenario.items) initial))
    = {| processedData := []; processing := true |}.
Proof.
  assert (Hn : (2 < callbacks (length MoreScenario.items))%nat).
  { vm_compute. lia. }
  split; [exact Hn|].
  exact (proj1 (no_partial_results MoreScenario.item_clock MoreScenario.items initial 2 Hn)).
Defined.

(** X22: for an input of objects the published list has one entry per
    item, carries the items unchanged and in order, stamps entry [i] with
    the clock reading taken for item [i], and gives each entry a cache of
    CACHE_LENGTH = 50000 copies of its page views (0 when the item has
    none). *)
Theorem published_entries (now : nat -> Z) (objects : list JsObject) (h : Hook) :
  let out := processedData
               (snd (idle (callbacks (length objects)) now
                       (processData (JObject <$> objects) h))) in
  length out = length objects /\
  item <$> out = objects /\
  processed <$> out = now <$> seq 0 (length objects) /\
  Forall (fun p => length (cache p) = CACHE_LENGTH /\
                   forall c, c ∈ cache p -> c = default 0 (o_pageViews (item p))) out.
Proof.
  rewrite idle_completes. cbn [snd processedData]. unfold outputs.
  split; [apply length_imap|]. split; [|split].
  - apply list_eq. intros i. rewrite list_lookup_fmap, list_lookup_imap.
    destruct (objects !! i); reflexivity.
  - apply list_eq. intros i. rewrite !list_lookup_fmap, list_lookup_imap.
    destruct (objects !! i) as [it|] eqn:Hi.
    + rewrite lookup_seq_lt by (eapply lookup_lt_Some, Hi). reflexivity.
    + rewrite lookup_seq_ge by (apply lookup_ge_None, Hi). reflexivity.
  - apply Forall_lookup. intros i p Hp.
    apply list_lookup_imap_Some in Hp as (it & _ & ->).
    unfold process. cbn [item cache]. split.
    + apply length_replicate.
    + intros c Hc. apply elem_of_replicate in Hc as [-> _].
      unfold pageViews_or_0. destruct (o_pageViews it); reflexivity.
Qed.

(** X23: an input with an item that is [null] or [undefined] is never
    published: [processChunk] throws at that item, so after any number of
    idle periods the hook still shows its previous [processedData] with
    [processing] on, and once the chunk of that item has come up no
    callback is pending any more. *)
Theorem null_item_blocks_the_job
    (now : nat -> Z) (data : list JsValue) (h : Hook) (p n : nat) :
  data !! p = Some JNull ->
  snd (idle n now (processData data h))
    = {| processedData := processedData h; processing := true |} /\
  ((p / 100 < n)%nat -> fst (idle n now (processData data h)) = None).
Proof.
  intros Hnull.
  assert (Hstuck : forall k, stuck_before p data
                     {| processedData := processedData h; processing := true |}
                     (idle k now (processData data h))).
  { intros k. apply idle_stuck; [exact Hnull|].
    split; [reflexivity|]. simpl. split; [reflexivity | lia]. }
  split; [exact (proj1 (Hstuck n))|].
  intros Hn.
  assert (Hcount : forall k j, fst (idle k now (processData data h)) = Some j ->
                               index j = (k * 100)%nat).
  { induction k as [|k IH]; intros j Hj.
    - simpl in Hj. injection Hj as <-. reflexivity.
    - rewrite idle_snoc in Hj.
      destruct (idle k now (processData data h)) as [[j'|] h'] eqn:Hk; simpl in Hj;
        [|discriminate].
      specialize (IH j' eq_refl). unfold processChunk, chunkSize in Hj.
      destruct (map_items now (index j') _); simpl in Hj; [|discriminate].
      destruct (index j' + 100 <? length (j_data j'))%nat; simpl in Hj; [|discriminate].
      injection Hj as <-. simpl. lia. }
  destruct (fst (idle n now (processData data h))) as [j|] eqn:Hj; [|reflexivity].
  pose proof (Hcount n j Hj) as Hidx.
  pose proof (proj2 (Hstuck n)) as Hjob. rewrite Hj in Hjob. destruct Hjob as [_ Hle].
  pose proof (Nat.div_mod_eq p 100) as Hdiv.
  pose proof (Nat.mod_upper_bound p 100) as Hmod. lia.
Qed.

Lemma null_item_blocks_the_job_witness :
  MoreScenario.with_null !! 1%nat = Some JNull /\
  idle 1 MoreScenario.item_clock (processData MoreScenario.with_null initial)
    = (None, {| processedData := []; processing := true |}).
Proof.
  assert (Hnull : MoreScenario.with_null !! 1%nat = Some JNull) by reflexivity.
  split; [exact Hnull|].
  pose proof (null_item_blocks_the_job MoreScenario.item_clock MoreScenario.with_null
                initial 1 1 Hnull) as [Hhook Hjob].
  apply injective_projections; [apply Hjob; vm_compute; lia | exact Hhook].
Defined.

End DataProcessorFacts.
